(** * update_photoshop_template_path.py: template resolution and line rewrite

    A shallow embedding of [scripts/update_photoshop_template_path.py].

    Conventions of the embedding:
    - a Python [str] is a list of characters ([text]);
    - [pathlib] is taken in its POSIX flavour ([PosixPath], separator [/],
      [os.linesep] a single line feed);
    - the file system is a finite map from the string of a resolved path to
      the stored characters of the regular file there; [Path.resolve] and
      [os.path.expanduser] are given by the environment;
    - exceptions are values, and the statements of [main] run in a state and
      error monad over the file system and the standard output;
    - [argparse] is not part of the embedding: a run starts from the parsed
      arguments. *)

From Stdlib Require Import Ascii String.
From stdpp Require Import gmap strings list.

Abbreviation text := (list ascii).

(** A string literal as a Python [str]. *)
Definition chars (s : string) : text := list_ascii_of_string s.

Definition LF : ascii := "010"%char.
Definition CR : ascii := "013"%char.
Definition BACKSLASH : ascii := "\"%char.

(** ** Pure paths ([pathlib.PurePosixPath]) *)

Module PurePath.

(** [root] is empty, [/] or [//]; [parts] are the components after it. *)
Record t := mk { root : text; parts : list text }.

#[global] Instance eq_dec : EqDecision t.
Proof. solve_decision. Defined.

Definition sep : ascii := "/"%char.

(** [str.split(sep)] *)
Fixpoint split (s : text) : list text :=
  match s with
  | [] => [[]]
  | c :: r =>
      if decide (c = sep) then [] :: split r
      else match split r with
           | h :: tl => (c :: h) :: tl
           | [] => [[c]]
           end
  end.

(** [str.lstrip(sep)] *)
Fixpoint lstrip (s : text) : text :=
  match s with
  | c :: r => if decide (c = sep) then lstrip r else s
  | [] => []
  end.

(** [_PosixFlavour.splitroot]: exactly two leading slashes are kept as the
    root [//], any other number of them is the root [/]. *)
Definition splitroot (part : text) : text * text :=
  match part with
  | c :: _ =>
      if decide (c = sep) then
        let stripped := lstrip part in
        if decide (length part - length stripped = 2)
        then ([sep; sep], stripped)
        else ([sep], stripped)
      else ([], part)
  | [] => ([], part)
  end.

(** [Path(s)]: empty components and [.] components are dropped. *)
Definition parse (s : text) : t :=
  let '(r, rel) := splitroot s in
  mk r (filter (fun x => x <> [] /\ x <> chars ".") (split rel)).

(** [sep.join(l)] *)
Fixpoint join (l : list text) : text :=
  match l with
  | [] => []
  | [x] => x
  | x :: rest => x ++ sep :: join rest
  end.

(** [str(p)] *)
Definition str (p : t) : text :=
  match root p, parts p with
  | [], [] => chars "."
  | r, ps => r ++ join ps
  end.

(** [p.as_posix()]: the separator is already [/]. *)
Definition as_posix (p : t) : text := str p.

(** [p.is_absolute()] *)
Definition is_absolute (p : t) : bool :=
  match root p with [] => false | _ => true end.

(** [p / s] *)
Definition joinpath (p : t) (s : text) : t :=
  let q := parse s in
  if is_absolute q then q else mk (root p) (parts p ++ parts q).

End PurePath.

Abbreviation Path := PurePath.parse.
Infix "//" := PurePath.joinpath (at level 40, left associativity).

(** ** Exceptions, the file system and the monad of [main] *)

(** The exceptions the program can raise, each with the text of [str(exc)].
    [TemplateError] stands for what [re] raises on a malformed replacement
    template ([re.error], or [IndexError] for an unknown group name). *)
Inductive exception :=
| FileNotFoundError (msg : text)
| RuntimeError (msg : text)
| TemplateError (msg : text).

Definition exc_str (e : exception) : text :=
  match e with
  | FileNotFoundError msg | RuntimeError msg | TemplateError msg => msg
  end.

(** What a run reads from its surroundings and never changes. *)
Record Env := {
  getcwd : text;                              (* os.getcwd() *)
  repo_root : PurePath.t;                     (* Path(__file__).resolve().parents[1] *)
  os_expanduser : text -> text;               (* os.path.expanduser *)
  resolve : PurePath.t -> PurePath.t;         (* Path.resolve() *)
  re_error_text : text -> text                (* the message re gives for a bad template *)
}.

(** The regular files (by the string of their resolved path, with the
    characters stored in them) and the lines printed so far. *)
Record state := { files : gmap text text; stdout : list text }.

Definition M (A : Type) : Type := state -> (exception + A) * state.

Definition ret {A} (x : A) : M A := fun st => (inr x, st).

Definition raise {A} (e : exception) : M A := fun st => (inl e, st).

Definition bind {A B} (m : M A) (k : A -> M B) : M B :=
  fun st =>
    match m st with
    | (inl e, st') => (inl e, st')
    | (inr x, st') => k x st'
    end.

Notation "'let*' x ':=' m 'in' k" := (bind m (fun x => k))
  (at level 10, x name, m at level 100, k at level 200, only parsing).

Definition lift {A} (r : exception + A) : M A :=
  match r with inl e => raise e | inr x => ret x end.

Definition file_key (env : Env) (p : PurePath.t) : text :=
  PurePath.str (resolve env p).

(** Whether [p] refers to a regular file of the file system [fs]. *)
Definition regular_file (env : Env) (fs : gmap text text) (p : PurePath.t) : bool :=
  bool_decide (is_Some (fs !! file_key env p)).

(** [p.is_file()] *)
Definition is_file (env : Env) (p : PurePath.t) : M bool :=
  fun st => (inr (regular_file env (files st) p), st).

(** Text mode with [newline=None] on input: [\r\n] and [\r] become [\n]. *)
Fixpoint universal_newlines (s : text) : text :=
  match s with
  | [] => []
  | c :: r =>
      if decide (c = CR) then
        match r with
        | c' :: r' =>
            if decide (c' = LF) then LF :: universal_newlines r'
            else LF :: universal_newlines r
        | [] => [LF]
        end
      else c :: universal_newlines r
  end.

(** [p.read_text()] *)
Definition read_text (env : Env) (p : PurePath.t) : M text :=
  fun st =>
    match files st !! file_key env p with
    | Some raw => (inr (universal_newlines raw), st)
    | None =>
        (inl (FileNotFoundError
                (chars "[Errno 2] No such file or directory: '"
                 ++ PurePath.str p ++ chars "'")), st)
    end.

(** [p.write_text(data)]: on output [\n] is written as [os.linesep], itself. *)
Definition write_text (env : Env) (p : PurePath.t) (data : text) : M unit :=
  fun st =>
    (inr tt, {| files := <[file_key env p := data]> (files st);
                stdout := stdout st |}).

(** [print(line)] *)
Definition print (line : text) : M unit :=
  fun st => (inr tt, {| files := files st; stdout := stdout st ++ [line] |}).

(** ** [Path.expanduser] *)

Definition starts_with_tilde (s : text) : bool :=
  match s with c :: _ => bool_decide (c = "~"%char) | [] => false end.

Definition expanduser (env : Env) (p : PurePath.t) : exception + PurePath.t :=
  match PurePath.root p, PurePath.parts p with
  | [], first :: rest =>
      if starts_with_tilde first then
        let homedir := os_expanduser env first in
        if starts_with_tilde homedir then
          inl (RuntimeError (chars "Could not determine home directory."))
        else
          let h := Path homedir in
          inr (PurePath.mk (PurePath.root h) (PurePath.parts h ++ rest))
      else inr p
  | _, _ => inr p
  end.

(** ** [resolve_template_path] *)

Definition TEMPLATE_NAME : text := chars "spirit_hex_grey.psd".

Definition NOT_LOCATED : text :=
  chars "Unable to locate spirit_hex_grey.psd. Pass --template /full/path/to/file.psd".

(** [if cli_value:] a missing option and the empty string are both false. *)
Definition truthy (cli_value : option text) : option text :=
  match cli_value with
  | Some [] | None => None
  | Some v => Some v
  end.

(** The list [candidates] as it stands when the loop starts. *)
Definition candidates (env : Env) (cli_value : option text)
    (repo_root : PurePath.t) : exception + list PurePath.t :=
  match truthy cli_value with
  | Some v =>
      match expanduser env (Path v) with
      | inl e => inl e
      | inr p => inr [p]
      end
  | None =>
      let cwd_candidate := Path (getcwd env) // TEMPLATE_NAME in
      let repo_candidate := repo_root // TEMPLATE_NAME in
      inr [cwd_candidate; repo_candidate]
  end.

(** [for candidate in candidates: ...] followed by the final [raise]. *)
Fixpoint first_file (env : Env) (cs : list PurePath.t) : M PurePath.t :=
  match cs with
  | [] => raise (FileNotFoundError NOT_LOCATED)
  | candidate :: rest =>
      let* found := is_file env candidate in
      if found then ret (resolve env candidate) else first_file env rest
  end.

Definition resolve_template_path (env : Env) (cli_value : option text)
    (repo_root : PurePath.t) : M PurePath.t :=
  let* cs := lift (candidates env cli_value repo_root) in
  first_file env cs.

(** ** The regular expression and its matcher

    The pattern uses literal characters and one non-greedy [.*?]; the
    matcher is the backtracking search of [re] on such patterns. Without
    flags, [.] matches every character except the line feed. *)

Inductive atom :=
| Lit (c : ascii)        (* a literal character *)
| MinRepeatAny.          (* [.*?] *)

Definition literal (s : string) : list atom := Lit <$> chars s.

(** [re.compile(r"var templateFile = new File\('.*?'\);")] *)
Definition REPLACEMENT_PATTERN : list atom :=
  literal "var templateFile = new File('" ++ [MinRepeatAny] ++ literal "');".

(** The length of the match of [p] that starts at the head of [s], if any.
    [.*?] first tries the rest of the pattern and takes one more character
    only when that fails. *)
Fixpoint match_here (p : list atom) : text -> option nat :=
  match p with
  | [] => fun _ => Some 0
  | Lit c :: p' =>
      fun s =>
        match s with
        | c' :: s' => if decide (c' = c) then S <$> match_here p' s' else None
        | [] => None
        end
  | MinRepeatAny :: p' =>
      fix lazy (s : text) : option nat :=
        match match_here p' s with
        | Some n => Some n
        | None =>
            match s with
            | c :: s' => if decide (c = LF) then None else S <$> lazy s'
            | [] => None
            end
        end
  end.

(** [p.search(s)]: the span (start, end) of the leftmost match. *)
Fixpoint search (p : list atom) (s : text) : option (nat * nat) :=
  match match_here p s with
  | Some n => Some (0, n)
  | None =>
      match s with
      | [] => None
      | _ :: r => (fun '(a, b) => (S a, S b)) <$> search p r
      end
  end.

(** ** Replacement templates

    [p.sub(repl, s)] reads a string [repl] as a template in which a
    backslash starts an escape. The pattern has no groups, so the only
    group that can be referred to is group 0, the whole match. *)

Inductive titem :=
| TChar (c : ascii)
| TGroup0.

Definition is_octdigit (c : ascii) : bool :=
  bool_decide (48 <= nat_of_ascii c <= 55).

Definition is_digit (c : ascii) : bool :=
  bool_decide (48 <= nat_of_ascii c <= 57).

Definition is_ascii_letter (c : ascii) : bool :=
  bool_decide (65 <= nat_of_ascii c <= 90 \/ 97 <= nat_of_ascii c <= 122).

Definition digit_value (c : ascii) : nat := nat_of_ascii c - 48.

(** [ESCAPES] of [re._parser], by the character after the backslash. *)
Definition ESCAPES (c : ascii) : option ascii :=
  if decide (c = "a"%char) then Some "007"%char
  else if decide (c = "b"%char) then Some "008"%char
  else if decide (c = "f"%char) then Some "012"%char
  else if decide (c = "n"%char) then Some "010"%char
  else if decide (c = "r"%char) then Some "013"%char
  else if decide (c = "t"%char) then Some "009"%char
  else if decide (c = "v"%char) then Some "011"%char
  else if decide (c = BACKSLASH) then Some BACKSLASH
  else None.

(** [re._parser.parse_template] for a pattern without groups; [None] when
    [re] rejects the template. *)
Fixpoint parse_template (s : text) : option (list titem) :=
  match s with
  | [] => Some []
  | c :: s1 =>
      if decide (c = BACKSLASH) then
        match s1 with
        | [] => None                                     (* bad escape (end of pattern) *)
        | e :: s2 =>
            if decide (e = "g"%char) then
              match s2 with
              | lt :: s3 =>
                  if decide (lt = "<"%char) then
                    (fix name (seen : bool) (s : text) : option (list titem) :=
                       match s with
                       | d :: rest =>
                           if decide (d = ">"%char) then
                             if seen then cons TGroup0 <$> parse_template rest
                             else None                   (* missing group name *)
                           else if decide (d = "0"%char) then name true rest
                           else None                     (* another group *)
                       | [] => None                      (* missing > *)
                       end) false s3
                  else None                              (* missing < *)
              | [] => None
              end
            else if decide (e = "0"%char) then
              match s2 with
              | o1 :: s3 =>
                  if is_octdigit o1 then
                    match s3 with
                    | o2 :: s4 =>
                        if is_octdigit o2 then
                          cons (TChar (ascii_of_nat (8 * digit_value o1 + digit_value o2)))
                            <$> parse_template s4
                        else
                          cons (TChar (ascii_of_nat (digit_value o1))) <$> parse_template s3
                    | [] => Some [TChar (ascii_of_nat (digit_value o1))]
                    end
                  else cons (TChar (ascii_of_nat 0)) <$> parse_template s2
              | [] => Some [TChar (ascii_of_nat 0)]
              end
            else if is_digit e then
              match s2 with
              | d2 :: d3 :: s4 =>
                  if is_octdigit e && is_octdigit d2 && is_octdigit d3 then
                    let v := 64 * digit_value e + 8 * digit_value d2 + digit_value d3 in
                    if decide (v <= 255)
                    then cons (TChar (ascii_of_nat v)) <$> parse_template s4
                    else None                            (* octal escape out of range *)
                  else None                              (* invalid group reference *)
              | _ => None                                (* invalid group reference *)
              end
            else
              match ESCAPES e with
              | Some x => cons (TChar x) <$> parse_template s2
              | None =>
                  if is_ascii_letter e then None         (* bad escape *)
                  else (fun t => TChar c :: TChar e :: t) <$> parse_template s2
              end
        end
      else cons (TChar c) <$> parse_template s1
  end.

(** [re._expand]: the template with the match filled in. *)
Fixpoint expand (tpl : list titem) (matched : text) : text :=
  match tpl with
  | [] => []
  | TChar c :: rest => c :: expand rest matched
  | TGroup0 :: rest => matched ++ expand rest matched
  end.

(** [p.sub(repl, s, count=1)] *)
Definition sub1 (env : Env) (p : list atom) (repl s : text) : exception + text :=
  match parse_template repl with
  | None => inl (TemplateError (re_error_text env repl))
  | Some tpl =>
      match search p s with
      | Some (a, b) =>
          inr (take a s ++ expand tpl (take (b - a) (drop a s)) ++ drop b s)
      | None => inr s
      end
  end.

(** ** [main] and the script's top level *)

(** The namespace [parse_args] returns; [jsx] is [None] when the option is
    absent and the default of the option is used. *)
Record Args := { template : option text; jsx : option text }.

Definition JSX_NOT_FOUND (jsx_path : PurePath.t) : text :=
  chars "Could not find JSX file at " ++ PurePath.str jsx_path.

Definition PATTERN_NOT_FOUND : text :=
  chars "Could not find templateFile line to update in the JSX file.".

Definition replacement_line (template_path : PurePath.t) : text :=
  chars "var templateFile = new File('" ++ PurePath.as_posix template_path
  ++ chars "');".

Definition confirmation (jsx_path template_path : PurePath.t) : text :=
  chars "Updated template path in " ++ PurePath.str jsx_path
  ++ chars " to " ++ PurePath.str template_path.

Definition jsx_path_of (env : Env) (args : Args) : PurePath.t :=
  match jsx args with
  | Some s => Path s
  | None => repo_root env // chars "scripts" // chars "hex-spirit-game-print.jsx"
  end.

Definition main (env : Env) (args : Args) : M Z :=
  let* template_path := resolve_template_path env (template args) (repo_root env) in
  let jsx_path := jsx_path_of env args in
  let* found := is_file env jsx_path in
  if negb found then raise (FileNotFoundError (JSX_NOT_FOUND jsx_path))
  else
    let* text := read_text env jsx_path in
    match search REPLACEMENT_PATTERN text with
    | None => raise (RuntimeError PATTERN_NOT_FOUND)
    | Some _ =>
        let* updated :=
          lift (sub1 env REPLACEMENT_PATTERN (replacement_line template_path) text) in
        let* _ := write_text env jsx_path updated in
        let* _ := print (confirmation jsx_path template_path) in
        ret 0%Z
    end.

(** What the process leaves behind: its exit code, the lines on the two
    streams and the file system. *)
Record outcome := {
  exit_code : Z;
  out : list text;
  err : list text;
  disk : gmap text text
}.

(** The state a process starts in: nothing printed yet. *)
Definition initial (fs : gmap text text) : state :=
  {| files := fs; stdout := [] |}.

(** The [if __name__ == '__main__':] block, started on the file system [fs]. *)
Definition run (env : Env) (args : Args) (fs : gmap text text) : outcome :=
  match main env args (initial fs) with
  | (inr code, st) =>
      {| exit_code := code; out := stdout st; err := []; disk := files st |}
  | (inl exc, st) =>
      {| exit_code := 1; out := stdout st;
         err := [chars "Error: " ++ exc_str exc]; disk := files st |}
  end.

(** ** The vocabulary of the specification *)

(** The strings a pattern denotes: a literal denotes itself, [.*?] any
    string without a line feed. *)
Inductive Matches : list atom -> text -> Prop :=
| Matches_nil : Matches [] []
| Matches_lit c p m : Matches p m -> Matches (Lit c :: p) (c :: m)
| Matches_any p a m :
    LF ∉ a -> Matches p m -> Matches (MinRepeatAny :: p) (a ++ m).

(** [s] contains a substring matching [p]. *)
Definition occurs (p : list atom) (s : text) : Prop :=
  exists pre m post, s = pre ++ m ++ post /\ Matches p m.

(** [msg] contains [word]. *)
Definition mentions (msg : text) (word : string) : Prop :=
  exists a b, msg = a ++ chars word ++ b.

Definition PREFIX : text := chars "var templateFile = new File('".
Definition SUFFIX : text := chars "');".

(** What is left of the search once [PREFIX] has been read: [.*?');]. *)
Definition scan (s : text) : option nat :=
  match_here (MinRepeatAny :: (Lit <$> SUFFIX) ++ []) s.

(** The candidate list as the specification words it: the explicit path
    if supplied, then the two fallbacks, whatever the first one is. *)
Definition claimed_candidates (env : Env) (cli_value : option text)
    (repo_root : PurePath.t) : list PurePath.t :=
  match cli_value with
  | Some v =>
      match expanduser env (Path v) with
      | inr p => [p]
      | inl _ => []
      end
  | None => []
  end ++ [Path (getcwd env) // TEMPLATE_NAME; repo_root // TEMPLATE_NAME].

(** The first of them that is a regular file, resolved. *)
Definition claimed_resolution (env : Env) (fs : gmap text text)
    (cli_value : option text) (repo_root : PurePath.t) : option PurePath.t :=
  resolve env <$> head (filter (fun c => regular_file env fs c = true)
                               (claimed_candidates env cli_value repo_root)).

(** Whether [p] starts with a home-directory shorthand ([~] or [~user]). *)
Definition home_shorthand (p : PurePath.t) : bool :=
  match PurePath.root p, PurePath.parts p with
  | [], first :: _ => starts_with_tilde first
  | _, _ => false
  end.

(** The template paths on which a second run finds the line the first
    run wrote: no backslash, no line break and no [');] inside. *)
Definition plain_path (s : text) : Prop :=
  (BACKSLASH ∉ s) /\ (LF ∉ s) /\ (CR ∉ s) /\
  (forall a b, s <> a ++ SUFFIX ++ b).

(** ** Example worlds

    A machine without symbolic links: working directory [/work], the
    repository at [/repo], home directory [/home/u]. *)

Definition example_env : Env :=
  {| getcwd := chars "/work";
     repo_root := Path (chars "/repo");
     os_expanduser :=
       fun s => if decide (s = chars "~") then chars "/home/u" else s;
     resolve :=
       fun p =>
         if PurePath.is_absolute p then p
         else PurePath.mk [PurePath.sep] (chars "work" :: PurePath.parts p);
     re_error_text := fun _ => chars "bad escape" |}.

Definition JSX_KEY : text := chars "/repo/scripts/hex-spirit-game-print.jsx".

Definition OLD_LINE : text := chars "var templateFile = new File('/old/path.psd');".

(** The script with LF line ends, and the template under [/tmp/t]. *)
Definition example_fs : gmap text text :=
  {[ chars "/tmp/t/spirit_hex_grey.psd" := chars "8BPS";
     JSX_KEY := chars "// print" ++ [LF] ++ OLD_LINE ++ [LF] ++ chars "run();" ++ [LF] ]}.

(** The same script with CR LF line ends. *)
Definition crlf_fs : gmap text text :=
  {[ chars "/tmp/t/spirit_hex_grey.psd" := chars "8BPS";
     JSX_KEY := chars "// print" ++ [CR; LF] ++ OLD_LINE ++ [CR; LF] ]}.

(** A template in the working directory only. *)
Definition cwd_fs : gmap text text :=
  {[ chars "/work/spirit_hex_grey.psd" := chars "8BPS";
     JSX_KEY := OLD_LINE ]}.

(** A template whose file name contains [');]. *)
Definition quote_fs : gmap text text :=
  {[ chars "/tmp/t/a');b.psd" := chars "8BPS";
     JSX_KEY := OLD_LINE ]}.

(** No template anywhere, and a script without the line. *)
Definition bare_fs : gmap text text :=
  {[ JSX_KEY := chars "run();" ]}.

Definition plain_fs : gmap text text :=
  {[ chars "/tmp/t/spirit_hex_grey.psd" := chars "8BPS";
     JSX_KEY := chars "run();" ]}.

Definition example_args : Args :=
  {| template := Some (chars "/tmp/t/spirit_hex_grey.psd"); jsx := None |}.

Definition default_args : Args := {| template := None; jsx := None |}.

(** A template whose file name contains a backslash followed by [n]. *)
Definition backslash_fs : gmap text text :=
  {[ chars "/tmp/t/a\n.psd" := chars "8BPS";
     JSX_KEY := OLD_LINE ]}.

Definition backslash_args : Args :=
  {| template := Some (chars "/tmp/t/a\n.psd"); jsx := None |}.

(** A template whose file name contains a backslash followed by [d]. *)
Definition escape_fs : gmap text text :=
  {[ chars "/tmp/t/a\d.psd" := chars "8BPS";
     JSX_KEY := OLD_LINE ]}.

Definition escape_args : Args :=
  {| template := Some (chars "/tmp/t/a\d.psd"); jsx := None |}.

(** An explicit template under the home of a user the machine does not
    know, with the default target and with a target that does not exist. *)
Definition tilde_args : Args :=
  {| template := Some (chars "~bob/t.psd"); jsx := None |}.

Definition tilde_missing_args : Args :=
  {| template := Some (chars "~bob/t.psd"); jsx := Some (chars "missing.jsx") |}.

Definition HOME_UNKNOWN : text := chars "Could not determine home directory.".

Definition quote_args : Args :=
  {| template := Some (chars "/tmp/t/a');b.psd"); jsx := None |}.

(** * Properties *)

(** ** The matcher *)

Section Matcher.

Implicit Types (p : list atom) (s m : text).

Lemma match_here_lazy p s :
  match_here (MinRepeatAny :: p) s =
  match match_here p s with
  | Some n => Some n
  | None =>
      match s with
      | c :: s' =>
          if decide (c = LF) then None
          else S <$> match_here (MinRepeatAny :: p) s'
      | [] => None
      end
  end.
Proof. destruct s; reflexivity. Qed.

(** A reported match is a prefix of the text and belongs to the pattern. *)
Lemma match_here_sound p : forall s n,
  match_here p s = Some n -> n <= length s /\ Matches p (take n s).
Proof.
  induction p as [|[c|] p IH]; intros s n.
  - simpl. intros [= <-]. split; [lia|]. rewrite take_0. constructor.
  - destruct s as [|c' s]; simpl; [discriminate|].
    destruct (decide (c' = c)) as [->|]; [|discriminate].
    destruct (match_here p s) as [k|] eqn:E; simpl; [|discriminate].
    intros [= <-]. destruct (IH _ _ E). split; [lia|].
    simpl. by constructor.
  - revert n. induction s as [|c s IHs]; intros n; rewrite match_here_lazy.
    + destruct (match_here p []) as [k|] eqn:E; [|discriminate].
      intros [= <-]. destruct (IH _ _ E) as [Hk HM]. split; [done|].
      apply (Matches_any p [] _); [apply not_elem_of_nil | done].
    + destruct (match_here p (c :: s)) as [k|] eqn:E.
      * intros [= <-]. destruct (IH _ _ E) as [Hk HM]. split; [done|].
        apply (Matches_any p [] _); [apply not_elem_of_nil | done].
      * destruct (decide (c = LF)); [discriminate|].
        destruct (match_here (MinRepeatAny :: p) s) as [k|] eqn:E';
          simpl; [|discriminate].
        intros [= <-]. destruct (IHs _ eq_refl) as [Hk HM].
        split; [simpl; lia|].
        change (take (S k) (c :: s)) with (c :: take k s).
        inversion HM as [| |p0 a m0 Ha Hm0 Hp Heq]; subst.
        apply (Matches_any p (c :: a) m0); [|done].
        rewrite elem_of_cons. intros [?|?]; [congruence|done].
Qed.

(** Whatever follows a string of the pattern, the matcher finds a match. *)
Lemma match_here_complete p : forall m,
  Matches p m -> forall post, is_Some (match_here p (m ++ post)).
Proof.
  induction p as [|[c|] p IH]; intros m HM post.
  - by eexists.
  - inversion HM as [|c0 p0 m0 Hm0|]; subst. simpl.
    rewrite decide_True by done.
    destruct (IH _ Hm0 post) as [k ->]. by eexists.
  - inversion HM as [| |p0 a m0 Ha Hm0 Hp Heq]; subst. clear HM.
    induction a as [|c a IHa]; rewrite match_here_lazy.
    + simpl. destruct (IH _ Hm0 post) as [k ->]. by eexists.
    + destruct (match_here p (((c :: a) ++ m0) ++ post)); [by eexists|].
      simpl. rewrite not_elem_of_cons in Ha. destruct Ha as [Hc Ha].
      rewrite decide_False by done.
      destruct (IHa Ha) as [k Hk]. simpl in Hk. rewrite Hk. by eexists.
Qed.

(** The span a search reports: no match starts before it, one starts
    there and ends where the span does. *)
Lemma search_Some p : forall s a b,
  search p s = Some (a, b) ->
  a <= b /\ match_here p (drop a s) = Some (b - a) /\
  forall j, j < a -> match_here p (drop j s) = None.
Proof.
  induction s as [|c s IH]; intros a b; simpl.
  - destruct (match_here p []) as [n|] eqn:E; [|discriminate].
    intros [= <- <-]. split; [lia|]. split; [by rewrite Nat.sub_0_r|lia].
  - destruct (match_here p (c :: s)) as [n|] eqn:E.
    + intros [= <- <-]. split; [lia|]. split; [by rewrite Nat.sub_0_r|lia].
    + destruct (search p s) as [[a' b']|] eqn:E'; simpl; [|discriminate].
      intros [= <- <-]. destruct (IH _ _ eq_refl) as (Hle & Hm & Hlt).
      split; [lia|]. split; [done|].
      intros [|j] Hj; [done|]. simpl. apply Hlt. lia.
Qed.

Lemma search_None p : forall s,
  search p s = None -> forall j, match_here p (drop j s) = None.
Proof.
  induction s as [|c s IH]; simpl.
  - destruct (match_here p []) eqn:E; [discriminate|].
    intros _ j. by rewrite drop_nil.
  - destruct (match_here p (c :: s)) eqn:E; [discriminate|].
    destruct (search p s) as [[??]|] eqn:E'; [discriminate|].
    intros _ [|j]; [done|]. simpl. by apply IH.
Qed.

Lemma occurs_search p s : occurs p s <-> is_Some (search p s).
Proof.
  split.
  - intros (pre & m & post & -> & HM).
    destruct (search p (pre ++ m ++ post)) as [x|] eqn:E; [by eexists|].
    pose proof (search_None _ _ E (length pre)) as Hn.
    rewrite drop_app_length in Hn.
    destruct (match_here_complete _ _ HM post) as [k Hk]. congruence.
  - intros [[a b] E]. destruct (search_Some _ _ _ _ E) as (Hle & Hm & _).
    destruct (match_here_sound _ _ _ Hm) as [Hlen HM].
    exists (take a s), (take (b - a) (drop a s)), (drop (b - a) (drop a s)).
    split; [|done]. by rewrite !take_drop.
Qed.

Lemma search_bounds p : forall s a b,
  search p s = Some (a, b) -> a <= b <= length s.
Proof.
  induction s as [|c s IH]; intros a b; simpl.
  - destruct (match_here p []) as [n|] eqn:E; [|discriminate].
    intros [= <- <-]. destruct (match_here_sound _ _ _ E). simpl in *. lia.
  - destruct (match_here p (c :: s)) as [n|] eqn:E.
    + intros [= <- <-]. destruct (match_here_sound _ _ _ E). simpl in *. lia.
    + destruct (search p s) as [[a' b']|] eqn:E'; simpl; [|discriminate].
      intros [= <- <-]. specialize (IH _ _ eq_refl). lia.
Qed.

(** *** Literal runs *)

Lemma match_here_literal (l : text) p s :
  match_here ((Lit <$> l) ++ p) (l ++ s)
  = (fun n => length l + n) <$> match_here p s.
Proof.
  induction l as [|c l IH]; csimpl.
  - by destruct (match_here p s).
  - rewrite decide_True by done. rewrite IH.
    by destruct (match_here p s).
Qed.

Lemma match_here_literal_inv (l : text) p : forall s n,
  match_here ((Lit <$> l) ++ p) s = Some n -> exists s', s = l ++ s'.
Proof.
  induction l as [|c l IH]; intros s n; csimpl.
  - by exists s.
  - destruct s as [|c' s]; [discriminate|].
    destruct (decide (c' = c)) as [->|]; [|discriminate].
    destruct (match_here ((Lit <$> l) ++ p) s) as [k|] eqn:E; [|discriminate].
    intros _. destruct (IH _ _ E) as [s' ->]. by exists s'.
Qed.

(** A literal run cannot see past a line feed it does not contain. *)
Lemma match_here_literal_cut (l : text) :
  LF ∉ l -> forall u z z',
  match_here (Lit <$> l) (u ++ LF :: z) = match_here (Lit <$> l) (u ++ LF :: z').
Proof.
  induction l as [|c l IH]; intros Hl u z z'; [done|].
  rewrite not_elem_of_cons in Hl. destruct Hl as [Hc Hl].
  destruct u as [|x u]; csimpl.
  - by rewrite !(decide_False (P := LF = c)) by done.
  - destruct (decide (x = c)); [|done]. by rewrite (IH Hl u z z').
Qed.

Lemma Matches_literal_inv (l : text) p : forall m,
  Matches ((Lit <$> l) ++ p) m -> exists m', m = l ++ m' /\ Matches p m'.
Proof.
  induction l as [|c l IH]; intros m; csimpl.
  - by exists m.
  - inversion 1 as [|c0 p0 m0 Hm0|]; subst.
    destruct (IH _ Hm0) as (m' & -> & ?). by exists m'.
Qed.

Lemma Matches_literal (l : text) p m :
  Matches p m -> Matches ((Lit <$> l) ++ p) (l ++ m).
Proof. intros H. induction l; simpl; [done|]. by constructor. Qed.

Lemma Matches_LF_free p m : Lit LF ∉ p -> Matches p m -> LF ∉ m.
Proof.
  intros Hp. induction 1 as [|c p m HM IH|p a m Ha HM IH].
  - apply not_elem_of_nil.
  - rewrite not_elem_of_cons in Hp. destruct Hp as [Hc Hp].
    rewrite not_elem_of_cons. split; [congruence|auto].
  - rewrite not_elem_of_cons in Hp. destruct Hp as [_ Hp].
    rewrite not_elem_of_app. auto.
Qed.

End Matcher.

(** ** The pattern of the script *)

Section Pattern.

Implicit Types (s m body post : text).

Lemma REPLACEMENT_PATTERN_eq :
  REPLACEMENT_PATTERN
  = (Lit <$> PREFIX) ++ MinRepeatAny :: (Lit <$> SUFFIX) ++ [].
Proof. reflexivity. Qed.

Lemma LF_not_in_PREFIX : LF ∉ PREFIX.
Proof. compute_done. Qed.

Lemma LF_not_in_SUFFIX : LF ∉ SUFFIX.
Proof. compute_done. Qed.

Lemma length_SUFFIX : length SUFFIX = 3.
Proof. reflexivity. Qed.

Lemma suffix_not_inside (a : text) post :
  a <> [] -> (forall x y, a <> x ++ SUFFIX ++ y) ->
  match_here ((Lit <$> SUFFIX) ++ []) (a ++ SUFFIX ++ post) = None.
Proof.
  intros Ha Hin.
  destruct (match_here _ (a ++ SUFFIX ++ post)) as [n|] eqn:E; [|done].
  apply match_here_literal_inv in E as [s' E]. exfalso.
  unfold SUFFIX in *.
  destruct a as [|c1 [|c2 [|c3 a]]]; [done|..]; simplify_eq/=.
  by apply (Hin [] a).
Qed.

#[local] Opaque PREFIX SUFFIX.

(** The strings of the pattern: the two literal runs around a text
    without a line feed. *)
Lemma Matches_around (l1 l2 : text) m :
  Matches ((Lit <$> l1) ++ MinRepeatAny :: (Lit <$> l2) ++ []) m
  <-> exists body, (LF ∉ body) /\ m = l1 ++ body ++ l2.
Proof.
  split.
  - intros H. apply Matches_literal_inv in H as (m1 & -> & H).
    inversion H as [| |p0 body m2 Hb Hm2]; subst.
    apply Matches_literal_inv in Hm2 as (m3 & -> & Hm3).
    inversion Hm3; subst. exists body. by rewrite app_nil_r.
  - intros (body & Hb & ->). apply Matches_literal.
    constructor; [done|].
    rewrite <- (app_nil_r l2) at 2. apply Matches_literal. constructor.
Qed.

Lemma Matches_pattern m :
  Matches REPLACEMENT_PATTERN m
  <-> exists body, (LF ∉ body) /\ m = PREFIX ++ body ++ SUFFIX.
Proof. rewrite REPLACEMENT_PATTERN_eq. apply Matches_around. Qed.

Lemma pattern_LF_free m : Matches REPLACEMENT_PATTERN m -> LF ∉ m.
Proof.
  intros (body & Hb & ->)%Matches_pattern.
  rewrite !not_elem_of_app.
  split; [apply LF_not_in_PREFIX|]. split; [done|apply LF_not_in_SUFFIX].
Qed.

Lemma match_here_pattern s :
  match_here REPLACEMENT_PATTERN (PREFIX ++ s)
  = (fun n => length PREFIX + n) <$> scan s.
Proof. rewrite REPLACEMENT_PATTERN_eq. apply match_here_literal. Qed.

Lemma match_here_pattern_inv s n :
  match_here REPLACEMENT_PATTERN s = Some n -> exists s', s = PREFIX ++ s'.
Proof. rewrite REPLACEMENT_PATTERN_eq. apply match_here_literal_inv. Qed.

Lemma scan_step s :
  scan s =
  match match_here ((Lit <$> SUFFIX) ++ []) s with
  | Some n => Some n
  | None =>
      match s with
      | c :: s' => if decide (c = LF) then None else S <$> scan s'
      | [] => None
      end
  end.
Proof. apply match_here_lazy. Qed.

Lemma match_suffix_here post :
  match_here ((Lit <$> SUFFIX) ++ []) (SUFFIX ++ post) = Some (length SUFFIX).
Proof. rewrite match_here_literal. csimpl. by rewrite Nat.add_0_r. Qed.

(** The scan stops at the first [');], and not later than any of them. *)
Lemma scan_le body post :
  LF ∉ body ->
  exists k, scan (body ++ SUFFIX ++ post) = Some k
            /\ k <= length body + length SUFFIX.
Proof.
  induction body as [|c body IH]; intros Hb; rewrite scan_step.
  - rewrite app_nil_l, match_suffix_here. eexists; split; [done|simpl; lia].
  - destruct (match_here _ ((c :: body) ++ SUFFIX ++ post)) as [n|] eqn:E.
    + exists n. split; [done|].
      pose proof (match_here_sound _ _ _ E) as [Hn HM].
      apply Matches_literal_inv in HM as (m' & Hm' & HM).
      inversion HM; subst. rewrite app_nil_r in Hm'.
      apply (f_equal length) in Hm'.
      rewrite length_take in Hm'. rewrite length_cons. lia.
    + rewrite not_elem_of_cons in Hb. destruct Hb as [Hc Hb]. csimpl.
      rewrite decide_False by done.
      destruct (IH Hb) as (k & -> & Hk). exists (S k). split; [done|simpl; lia].
Qed.

Lemma scan_exact body post :
  LF ∉ body -> (forall x y, body <> x ++ SUFFIX ++ y) ->
  scan (body ++ SUFFIX ++ post) = Some (length body + length SUFFIX).
Proof.
  induction body as [|c body IH]; intros Hb Hin; rewrite scan_step.
  - rewrite app_nil_l. by rewrite match_suffix_here.
  - rewrite suffix_not_inside by done.
    rewrite not_elem_of_cons in Hb. destruct Hb as [Hc Hb]. csimpl.
    rewrite decide_False by done. rewrite IH; [done|done|].
    intros x y ->. by apply (Hin (c :: x) y).
Qed.

(** The scan does not look past a line feed. *)
Lemma scan_cut u z z' :
  LF ∉ u -> scan (u ++ LF :: z) = scan (u ++ LF :: z').
Proof.
  intros Hu. induction u as [|c u IH]; rewrite !(scan_step (_ ++ _)).
  - rewrite app_nil_r.
    by rewrite (match_here_literal_cut _ LF_not_in_SUFFIX [] z z').
  - rewrite not_elem_of_cons in Hu. destruct Hu as [Hc Hu].
    rewrite app_nil_r.
    rewrite (match_here_literal_cut _ LF_not_in_SUFFIX (c :: u) z z').
    rewrite <- !app_comm_cons. by rewrite (IH Hu).
Qed.

Lemma search_unfold p s :
  search p s =
  match match_here p s with
  | Some n => Some (0, n)
  | None =>
      match s with
      | [] => None
      | _ :: r => (fun '(a, b) => (S a, S b)) <$> search p r
      end
  end.
Proof. by destruct s. Qed.

(** A start at which the pattern fails keeps failing when the text is
    changed only after the opening quote of a later match. *)
Lemma match_here_before (r : text) body post (X : text) :
  LF ∉ body ->
  match_here REPLACEMENT_PATTERN (r ++ PREFIX ++ body ++ SUFFIX ++ post) = None ->
  match_here REPLACEMENT_PATTERN (r ++ PREFIX ++ X) = None.
Proof.
  intros Hb H1.
  destruct (match_here REPLACEMENT_PATTERN (r ++ PREFIX ++ X)) as [n|] eqn:E2;
    [exfalso|done].
  destruct (match_here_pattern_inv _ _ E2) as [s2 Hs2].
  assert (H2 : take (length PREFIX) (r ++ PREFIX ++ X) = PREFIX)
    by (by rewrite Hs2, take_app_length).
  assert (Ht : take (length PREFIX) (r ++ PREFIX ++ body ++ SUFFIX ++ post) = PREFIX).
  { rewrite (app_assoc r PREFIX) in H2 |- *.
    rewrite take_app_le in H2 |- * by (rewrite length_app; lia). done. }
  rewrite <- (take_drop (length PREFIX) (r ++ PREFIX ++ body ++ _)), Ht in H1.
  rewrite match_here_pattern in H1.
  rewrite <- (take_drop (length PREFIX) (r ++ PREFIX ++ X)), H2 in E2.
  rewrite match_here_pattern in E2.
  destruct (scan (drop (length PREFIX) (r ++ PREFIX ++ X))) as [k2|] eqn:S2;
    [clear E2|discriminate].
  destruct (scan (drop (length PREFIX) (r ++ PREFIX ++ body ++ SUFFIX ++ post)))
    eqn:S1; [discriminate|clear H1].
  rewrite drop_app in S1, S2.
  destruct (decide (LF ∈ drop (length PREFIX) r)) as [Hin|Hin].
  - apply list_elem_of_split_l in Hin as (u1 & u2 & Hu & Hu1).
    assert (length PREFIX <= length r).
    { destruct (decide (length PREFIX <= length r)); [done|].
      rewrite drop_ge in Hu by lia. by destruct u1. }
    replace (length PREFIX - length r) with 0 in S1, S2 by lia.
    rewrite !drop_0, Hu, <- !app_assoc, <- !app_comm_cons in S1, S2.
    rewrite (scan_cut u1 _ (u2 ++ PREFIX ++ X)) in S1 by done. congruence.
  - rewrite (app_assoc PREFIX body), drop_app_le,
      (app_assoc (drop (length PREFIX) r)) in S1.
    2: { rewrite length_app. lia. }
    destruct (scan_le (drop (length PREFIX) r
                       ++ drop (length PREFIX - length r) (PREFIX ++ body)) post)
      as (k & Hk & _); [|congruence].
    rewrite not_elem_of_app. split; [done|].
    intros Hd%subseteq_drop.
    apply elem_of_app in Hd as [Hd|Hd]; [by apply LF_not_in_PREFIX|done].
Qed.

(** Searching the text in which the first match was replaced by a line
    with a plain path finds that line, at the same place. *)
Lemma search_after_rewrite body post (path : text) : forall pre : text,
  LF ∉ body -> LF ∉ path -> (forall x y, path <> x ++ SUFFIX ++ y) ->
  search REPLACEMENT_PATTERN (pre ++ PREFIX ++ body ++ SUFFIX ++ post)
  = Some (length pre, length pre + length (PREFIX ++ body ++ SUFFIX)) ->
  search REPLACEMENT_PATTERN (pre ++ PREFIX ++ path ++ SUFFIX ++ post)
  = Some (length pre, length pre + length (PREFIX ++ path ++ SUFFIX)).
Proof.
  intros pre Hb Hp Hin. induction pre as [|c pre IH]; intros H;
    rewrite search_unfold.
  - rewrite app_nil_l, match_here_pattern, scan_exact by done. csimpl.
    by rewrite !length_app.
  - rewrite search_unfold in H.
    destruct (match_here _ ((c :: pre) ++ PREFIX ++ body ++ _)) eqn:E;
      [discriminate|].
    rewrite (match_here_before (c :: pre) body post (path ++ SUFFIX ++ post))
      by done.
    rewrite <- app_comm_cons in *.
    destruct (search _ (pre ++ PREFIX ++ body ++ _)) as [[a b]|] eqn:E';
      [|discriminate].
    csimpl in H. injection H as -> Hb'. rewrite IH; [done|].
    f_equal. f_equal. simpl in Hb'. lia.
Qed.

(** The span a search reports is the leftmost match, and the shortest
    one that starts there. *)
Lemma search_first s a b :
  search REPLACEMENT_PATTERN s = Some (a, b) ->
  exists pre body post,
    s = pre ++ (PREFIX ++ body ++ SUFFIX) ++ post /\ (LF ∉ body) /\
    a = length pre /\ b = length pre + length (PREFIX ++ body ++ SUFFIX) /\
    forall pre' m' post',
      s = pre' ++ m' ++ post' -> Matches REPLACEMENT_PATTERN m' ->
      length pre <= length pre' /\
      (length pre' = length pre ->
       length (PREFIX ++ body ++ SUFFIX) <= length m').
Proof.
  intros E. pose proof (search_bounds _ _ _ _ E) as Hab.
  destruct (search_Some _ _ _ _ E) as (_ & Hm & Hlt).
  destruct (match_here_sound _ _ _ Hm) as [Hlen HM].
  apply Matches_pattern in HM as (body & Hb & Hbody).
  assert (Hl : length (PREFIX ++ body ++ SUFFIX) = b - a).
  { rewrite <- Hbody, length_take. lia. }
  exists (take a s), body, (drop (b - a) (drop a s)).
  rewrite length_take, Hl. replace (a `min` length s) with a by lia.
  split; [by rewrite <- Hbody, !take_drop|].
  split; [done|]. split; [done|]. split; [lia|].
  intros pre' m' post' Hs HM'.
  assert (Hpre : a <= length pre').
  { destruct (decide (a <= length pre')); [done|].
    specialize (Hlt (length pre') ltac:(lia)).
    rewrite Hs, drop_app_length in Hlt.
    destruct (match_here_complete _ _ HM' post') as [k Hk]. congruence. }
  split; [done|]. intros Heq.
  rewrite Hs, <- Heq, drop_app_length in Hm.
  apply Matches_pattern in HM' as (body' & Hb' & ->).
  rewrite <- !app_assoc, match_here_pattern in Hm.
  destruct (scan_le body' post' Hb') as (k & Hk & Hkle).
  rewrite Hk in Hm. csimpl in Hm. rewrite !length_app. injection Hm as Hm. lia.
Qed.

End Pattern.

(** ** Line endings and templates *)

Lemma universal_newlines_no_CR s : CR ∉ universal_newlines s.
Proof.
  cut ((CR ∉ universal_newlines s)
       /\ (forall c, CR ∉ universal_newlines (c :: s))); [tauto|].
  induction s as [|x s [IH1 IH2]].
  - split; [apply not_elem_of_nil|]. intros c. simpl.
    destruct (decide (c = CR)); compute_done || (rewrite not_elem_of_cons; split; [done|apply not_elem_of_nil]).
  - split; [apply IH2|]. intros c.
    change (universal_newlines (c :: x :: s)) with
      (if decide (c = CR) then
         if decide (x = LF) then LF :: universal_newlines s
         else LF :: universal_newlines (x :: s)
       else c :: universal_newlines (x :: s)).
    destruct (decide (c = CR)); [destruct (decide (x = LF))|];
      rewrite not_elem_of_cons; split; try done; try apply IH2.
Qed.

Lemma universal_newlines_id s : CR ∉ s -> universal_newlines s = s.
Proof.
  induction s as [|c s IH]; [done|].
  rewrite not_elem_of_cons. intros [Hc Hs]. simpl.
  rewrite decide_False by done. by rewrite IH.
Qed.

Lemma parse_template_plain s :
  BACKSLASH ∉ s -> parse_template s = Some (TChar <$> s).
Proof.
  induction s as [|c s IH]; [done|].
  rewrite not_elem_of_cons. intros [Hc Hs]. simpl.
  rewrite decide_False by done. by rewrite IH.
Qed.

Lemma expand_plain s m : expand (TChar <$> s) m = s.
Proof. induction s as [|c s IH]; [done|]. csimpl. by rewrite IH. Qed.

(** ** The loop over the candidates *)

Section Resolver.

Context (env : Env).

Implicit Types (cs : list PurePath.t) (st : state) (fs : gmap text text).

Lemma first_file_found cs st : forall pre c post,
  cs = pre ++ c :: post ->
  Forall (fun x => regular_file env (files st) x = false) pre ->
  regular_file env (files st) c = true ->
  first_file env cs st = (inr (resolve env c), st).
Proof.
  intros pre c post -> Hpre Hc.
  induction Hpre as [|x pre Hx _ IH]; simpl; unfold bind, is_file.
  - by rewrite Hc.
  - by rewrite Hx.
Qed.

Lemma first_file_none cs st :
  Forall (fun x => regular_file env (files st) x = false) cs ->
  first_file env cs st = (inl (FileNotFoundError NOT_LOCATED), st).
Proof.
  induction 1 as [|x cs Hx _ IH]; simpl; [done|].
  unfold bind, is_file. by rewrite Hx.
Qed.

(** Every list either has a first regular file or has none. *)
Lemma first_regular fs cs :
  (exists pre c post,
     cs = pre ++ c :: post /\
     Forall (fun x => regular_file env fs x = false) pre /\
     regular_file env fs c = true)
  \/ Forall (fun x => regular_file env fs x = false) cs.
Proof.
  induction cs as [|x cs IH]; [by right|].
  destruct (regular_file env fs x) eqn:Hx.
  - left. by exists [], x, cs.
  - destruct IH as [(pre & c & post & -> & Hpre & Hc)|Hall].
    + left. exists (x :: pre), c, post. split; [done|]. split; [|done].
      by constructor.
    + right. by constructor.
Qed.

Lemma first_file_state cs st r st' :
  first_file env cs st = (r, st') -> st' = st.
Proof.
  destruct (first_regular (files st) cs) as [(pre & c & post & E & Hpre & Hc)|Hall].
  - rewrite (first_file_found _ _ _ _ _ E Hpre Hc). congruence.
  - rewrite (first_file_none _ _ Hall). congruence.
Qed.

Lemma resolve_template_path_state cli root st r st' :
  resolve_template_path env cli root st = (r, st') -> st' = st.
Proof.
  unfold resolve_template_path, bind, lift.
  destruct (candidates env cli root) as [e|cs]; simpl.
  - congruence.
  - apply first_file_state.
Qed.

Lemma resolve_template_path_candidates cli root cs st :
  candidates env cli root = inr cs ->
  resolve_template_path env cli root st = first_file env cs st.
Proof. unfold resolve_template_path, bind, lift. by intros ->. Qed.

(** The loop sees the file system only through [regular_file]. *)
Lemma first_file_ext cs st1 st2 :
  (forall p, regular_file env (files st1) p = regular_file env (files st2) p) ->
  (first_file env cs st1).1 = (first_file env cs st2).1.
Proof.
  intros Hreg. induction cs as [|c cs IH]; simpl; [done|].
  unfold bind, is_file. rewrite Hreg.
  by destruct (regular_file env (files st2) c).
Qed.

Lemma resolve_template_path_ext cli root st1 st2 :
  (forall p, regular_file env (files st1) p = regular_file env (files st2) p) ->
  (resolve_template_path env cli root st1).1
  = (resolve_template_path env cli root st2).1.
Proof.
  intros Hreg. unfold resolve_template_path, bind, lift.
  destruct (candidates env cli root) as [e|cs]; simpl; [done|].
  by apply first_file_ext.
Qed.

(** Writing to a regular file leaves every file a regular file. *)
Lemma regular_file_insert fs k v p :
  is_Some (fs !! k) ->
  regular_file env (<[k:=v]> fs) p = regular_file env fs p.
Proof.
  intros Hk. unfold regular_file. apply bool_decide_ext.
  rewrite lookup_insert. destruct (decide (k = file_key env p)) as [<-|]; [|done].
  split; [done|]. by eexists.
Qed.

End Resolver.

(** ** [main], statement by statement *)

Section Main.

Context (env : Env) (args : Args).

Implicit Types (st : state) (fs : gmap text text).

Lemma main_unresolved st e :
  resolve_template_path env (template args) (repo_root env) st = (inl e, st) ->
  main env args st = (inl e, st).
Proof. intros H. unfold main, bind. by rewrite H. Qed.

Lemma main_resolved st template_path :
  resolve_template_path env (template args) (repo_root env) st
  = (inr template_path, st) ->
  main env args st =
  let jsx_path := jsx_path_of env args in
  match files st !! file_key env jsx_path with
  | None => (inl (FileNotFoundError (JSX_NOT_FOUND jsx_path)), st)
  | Some raw =>
      let text := universal_newlines raw in
      match search REPLACEMENT_PATTERN text with
      | None => (inl (RuntimeError PATTERN_NOT_FOUND), st)
      | Some (a, b) =>
          match parse_template (replacement_line template_path) with
          | None =>
              (inl (TemplateError
                      (re_error_text env (replacement_line template_path))), st)
          | Some tpl =>
              (inr 0%Z,
               {| files :=
                    <[file_key env jsx_path :=
                        take a text ++ expand tpl (take (b - a) (drop a text))
                        ++ drop b text]> (files st);
                  stdout := stdout st ++ [confirmation jsx_path template_path] |})
          end
      end
  end.
Proof.
  intros H. unfold main, bind. rewrite H.
  unfold is_file, regular_file, read_text. cbv zeta.
  destruct (files st !! file_key env (jsx_path_of env args)) as [raw|] eqn:Hraw.
  - rewrite bool_decide_eq_true_2 by by eexists. cbn [negb files]. rewrite Hraw.
    destruct (search REPLACEMENT_PATTERN (universal_newlines raw))
      as [[a b]|] eqn:Hs; [|done].
    unfold sub1, lift. rewrite Hs.
    by destruct (parse_template (replacement_line template_path)).
  - rewrite bool_decide_eq_false_2; [done|]. by intros [? ?].
Qed.

(** An exception leaves the state as it was. *)
Lemma main_raise st e st' : main env args st = (inl e, st') -> st' = st.
Proof.
  destruct (resolve_template_path env (template args) (repo_root env) st)
    as [[e0|p] st0] eqn:H;
    pose proof (resolve_template_path_state _ _ _ _ _ _ H) as ->.
  - rewrite (main_unresolved _ _ H). congruence.
  - rewrite (main_resolved _ _ H). cbv zeta.
    repeat case_match; congruence.
Qed.

End Main.

(** ** Line endings and the pattern *)

Lemma universal_newlines_prefix (m : text) : forall raw post,
  LF ∉ m -> universal_newlines raw = m ++ post -> exists post', raw = m ++ post'.
Proof.
  induction m as [|c m IH]; intros raw post Hm H; [by exists raw|].
  rewrite not_elem_of_cons in Hm. destruct Hm as [Hc Hm].
  destruct raw as [|x r]; [done|]. simpl in H.
  destruct (decide (x = CR)).
  - destruct r as [|c' r']; [|destruct (decide (c' = LF))]; simplify_eq/=.
  - injection H as -> H. destruct (IH _ _ Hm H) as [post' ->]. by exists post'.
Qed.

Lemma universal_newlines_infix (m : text) : forall n raw pre post,
  length raw <= n -> LF ∉ m ->
  universal_newlines raw = pre ++ m ++ post ->
  exists pre' post', raw = pre' ++ m ++ post'.
Proof.
  induction n as [|n IH]; intros raw pre post Hn Hm H.
  - destruct raw; [|simpl in Hn; lia]. destruct pre, m; simplify_eq/=.
    by exists [], [].
  - destruct pre as [|p0 pre].
    { destruct (universal_newlines_prefix _ _ _ Hm H) as [post' ->].
      by exists [], post'. }
    destruct raw as [|x r]; [done|]. simpl in H, Hn.
    destruct (decide (x = CR)).
    + subst x.
      destruct r as [|c' r']; [|destruct (decide (c' = LF)); [subst c'|]];
        injection H as <- H.
      * destruct pre, m; [|done..]. by exists [CR], [].
      * destruct (IH r' pre post ltac:(simpl in Hn; lia) Hm H)
          as (pre' & post' & ->).
        by exists (CR :: LF :: pre'), post'.
      * destruct (IH (c' :: r') pre post ltac:(simpl in *; lia) Hm H)
          as (pre' & post' & E).
        exists (CR :: pre'), post'. by rewrite E.
    + injection H as -> H.
      destruct (IH r pre post ltac:(lia) Hm H) as (pre' & post' & ->).
      by exists (p0 :: pre'), post'.
Qed.

(** A match in the text as read is a match in the stored characters. *)
Lemma occurs_universal_newlines raw :
  occurs REPLACEMENT_PATTERN (universal_newlines raw) ->
  occurs REPLACEMENT_PATTERN raw.
Proof.
  intros (pre & m & post & H & HM).
  destruct (universal_newlines_infix m (length raw) raw pre post)
    as (pre' & post' & ->); [done|by apply pattern_LF_free|done|].
  by exists pre', m, post'.
Qed.

(** * The statements of the specification *)

#[local] Transparent PREFIX SUFFIX.

(** Unfolds a run whose template resolution [H] is known, down to the
    lookup of the target file. *)
Ltac run_resolved H :=
  unfold run; rewrite (main_resolved _ _ _ _ H); cbv zeta;
  cbn [files initial].

(** ** Template resolution *)

(** C1, as the specification states it, fails: with an explicit template
    that does not exist and a template in the working directory, the
    claimed resolution is the working-directory file, while
    [resolve_template_path] raises [FileNotFoundError]. *)
Lemma explicit_template_has_no_fallback :
  claimed_resolution example_env cwd_fs (Some (chars "/nope.psd"))
    (repo_root example_env)
  = Some (Path (chars "/work/spirit_hex_grey.psd"))
  /\ resolve_template_path example_env (Some (chars "/nope.psd"))
       (repo_root example_env) (initial cwd_fs)
     = (inl (FileNotFoundError NOT_LOCATED), initial cwd_fs).
Proof. split; reflexivity. Qed.

(** C1, amended: the candidate list is the expanded explicit path alone
    when a non-empty [--template] is given, and otherwise the file name in
    the working directory followed by the file name at the repository
    root; [resolve_template_path] returns the resolved form of the first
    candidate of that list that is a regular file, and raises
    [FileNotFoundError] when none is. *)
Theorem resolve_template_path_first_candidate
    (env : Env) (cli_value : option text) (root : PurePath.t) (st : state)
    (cs : list PurePath.t) :
  candidates env cli_value root = inr cs ->
  ((truthy cli_value = None
    /\ cs = [Path (getcwd env) // TEMPLATE_NAME; root // TEMPLATE_NAME])
   \/ (exists v p, truthy cli_value = Some v
                   /\ expanduser env (Path v) = inr p /\ cs = [p]))
  /\ ((exists pre c post,
         cs = pre ++ c :: post
         /\ Forall (fun x => regular_file env (files st) x = false) pre
         /\ regular_file env (files st) c = true
         /\ resolve_template_path env cli_value root st
            = (inr (resolve env c), st))
      \/ (Forall (fun x => regular_file env (files st) x = false) cs
          /\ resolve_template_path env cli_value root st
             = (inl (FileNotFoundError NOT_LOCATED), st))).
Proof.
  intros Hcs. split.
  - unfold candidates in Hcs. destruct (truthy cli_value) as [v|] eqn:Hv.
    + right. destruct (expanduser env (Path v)) as [e|p] eqn:Hp; [done|].
      exists v, p. by simplify_eq.
    + left. by simplify_eq.
  - rewrite (resolve_template_path_candidates _ _ _ _ _ Hcs).
    destruct (first_regular env (files st) cs)
      as [(pre & c & post & E & Hpre & Hc)|Hall].
    + left. exists pre, c, post. repeat split; [done..|].
      by apply (first_file_found env cs st pre c post).
    + right. split; [done|]. by apply first_file_none.
Qed.

Lemma resolve_template_path_first_candidate_witness :
  candidates example_env None (repo_root example_env)
  = inr [Path (chars "/work") // TEMPLATE_NAME;
         Path (chars "/repo") // TEMPLATE_NAME]
  /\ exists pre c post,
       [Path (chars "/work") // TEMPLATE_NAME;
        Path (chars "/repo") // TEMPLATE_NAME] = pre ++ c :: post
       /\ resolve_template_path example_env None (repo_root example_env)
            (initial cwd_fs)
          = (inr (resolve example_env c), initial cwd_fs).
Proof.
  split; [reflexivity|].
  destruct (resolve_template_path_first_candidate example_env None
              (repo_root example_env) (initial cwd_fs) _ eq_refl)
    as [_ [(pre & c & post & E & _ & _ & H)|[Hall _]]].
  - exists pre, c, post. split; [exact E | exact H].
  - apply Forall_cons in Hall as [Hc _]. vm_compute in Hc. discriminate Hc.
Defined.

(** C4, as the specification states it, fails: with [--template ~bob/t.psd]
    on a machine that has no user [bob], no candidate path is a regular
    file, yet resolution raises [RuntimeError], not [FileNotFoundError], and
    the message printed does not name the file. *)
Lemma unknown_home_is_not_resource_not_found :
  claimed_resolution example_env bare_fs (template tilde_args)
    (repo_root example_env) = None
  /\ regular_file example_env bare_fs (Path (chars "~bob/t.psd")) = false
  /\ resolve_template_path example_env (template tilde_args)
       (repo_root example_env) (initial bare_fs)
     = (inl (RuntimeError HOME_UNKNOWN), initial bare_fs)
  /\ exit_code (run example_env tilde_args bare_fs) = 1%Z
  /\ err (run example_env tilde_args bare_fs)
     = [chars "Error: Could not determine home directory."].
Proof. repeat split; reflexivity. Qed.

(** C4, amended: when the candidate list is built (the home-directory
    shorthand of an explicit path, if it has one, can be expanded) and no
    candidate is a regular file, resolution raises [FileNotFoundError] with
    a message that names [spirit_hex_grey.psd] and tells the caller to pass
    [--template]; the process prints it after [Error: ] and exits with
    code 1. *)
Theorem template_not_found_exit
    (env : Env) (args : Args) (fs : gmap text text) (cs : list PurePath.t) :
  candidates env (template args) (repo_root env) = inr cs ->
  Forall (fun c => regular_file env fs c = false) cs ->
  resolve_template_path env (template args) (repo_root env) (initial fs)
  = (inl (FileNotFoundError NOT_LOCATED), initial fs)
  /\ mentions NOT_LOCATED "spirit_hex_grey.psd"
  /\ mentions NOT_LOCATED "Pass --template"
  /\ exit_code (run env args fs) = 1%Z
  /\ err (run env args fs) = [chars "Error: " ++ NOT_LOCATED].
Proof.
  intros Hcs Hall.
  assert (H : resolve_template_path env (template args) (repo_root env) (initial fs)
              = (inl (FileNotFoundError NOT_LOCATED), initial fs)).
  { rewrite (resolve_template_path_candidates _ _ _ _ _ Hcs).
    by apply first_file_none. }
  split; [done|].
  split; [by exists (chars "Unable to locate "),
                    (chars ". Pass --template /full/path/to/file.psd")|].
  split; [by exists (chars "Unable to locate spirit_hex_grey.psd. "),
                    (chars " /full/path/to/file.psd")|].
  unfold run. by rewrite (main_unresolved _ _ _ _ H).
Qed.

Lemma template_not_found_exit_witness :
  candidates example_env (template default_args) (repo_root example_env)
  = inr [Path (chars "/work") // TEMPLATE_NAME;
         Path (chars "/repo") // TEMPLATE_NAME]
  /\ exit_code (run example_env default_args bare_fs) = 1%Z
  /\ err (run example_env default_args bare_fs)
     = [chars "Error: " ++ NOT_LOCATED].
Proof.
  split; [reflexivity|].
  refine (proj2 (proj2 (proj2
    (template_not_found_exit example_env default_args bare_fs _ eq_refl _)))).
  repeat constructor.
Defined.

(** C9, as the specification states it, fails: with [--template ~bob/t.psd]
    on a machine that has no user [bob] no template candidate exists, and
    the error reported, with the target present or missing, is the one of
    the home directory, not the template resource-not-found error. *)
Lemma unknown_home_reported_before_target :
  claimed_resolution example_env bare_fs (template tilde_args)
    (repo_root example_env) = None
  /\ run example_env tilde_args bare_fs
     = {| exit_code := 1; out := [];
          err := [chars "Error: Could not determine home directory."];
          disk := bare_fs |}
  /\ run example_env tilde_missing_args bare_fs
     = {| exit_code := 1; out := [];
          err := [chars "Error: Could not determine home directory."];
          disk := bare_fs |}
  /\ chars "Error: Could not determine home directory."
     <> chars "Error: " ++ NOT_LOCATED.
Proof. repeat split; try reflexivity. discriminate. Qed.

(** C9, amended: template resolution comes before the check of the
    target: when the candidate list is built (the home-directory shorthand
    of an explicit path, if it has one, can be expanded) and no candidate
    is a regular file, the run ends with the template error, whatever
    [--jsx] is and whether or not that file exists. *)
Theorem template_error_before_target_check
    (env : Env) (cli_value : option text) (target : option text)
    (fs : gmap text text) (cs : list PurePath.t) :
  candidates env cli_value (repo_root env) = inr cs ->
  Forall (fun c => regular_file env fs c = false) cs ->
  run env {| template := cli_value; jsx := target |} fs
  = {| exit_code := 1; out := [];
       err := [chars "Error: " ++ NOT_LOCATED]; disk := fs |}
  /\ chars "Error: " ++ NOT_LOCATED
     <> chars "Error: "
        ++ JSX_NOT_FOUND (jsx_path_of env {| template := cli_value; jsx := target |}).
Proof.
  intros Hcs Hall. split; [|by intros [=]].
  unfold run. rewrite (main_unresolved _ _ (initial fs) (FileNotFoundError NOT_LOCATED)).
  - done.
  - simpl. rewrite (resolve_template_path_candidates _ _ _ _ _ Hcs).
    by apply first_file_none.
Qed.

Lemma template_error_before_target_check_witness :
  candidates example_env None (repo_root example_env)
  = inr [Path (chars "/work") // TEMPLATE_NAME;
         Path (chars "/repo") // TEMPLATE_NAME]
  /\ run example_env {| template := None; jsx := Some (chars "/nowhere.jsx") |} bare_fs
     = {| exit_code := 1; out := [];
          err := [chars "Error: " ++ NOT_LOCATED]; disk := bare_fs |}.
Proof.
  split; [reflexivity|].
  refine (proj1 (template_error_before_target_check example_env None
                   (Some (chars "/nowhere.jsx")) bare_fs _ eq_refl _)).
  repeat constructor.
Defined.

(** ** The target file *)

(** C5, as the specification states it, fails: with a target that does
    not exist and [--template ~bob/t.psd] on a machine that has no user
    [bob], the program raises [RuntimeError], not a resource-not-found
    error. *)
Lemma missing_target_after_unknown_home :
  regular_file example_env example_fs
    (jsx_path_of example_env tilde_missing_args) = false
  /\ main example_env tilde_missing_args (initial example_fs)
     = (inl (RuntimeError HOME_UNKNOWN), initial example_fs)
  /\ run example_env tilde_missing_args example_fs
     = {| exit_code := 1; out := [];
          err := [chars "Error: Could not determine home directory."];
          disk := example_fs |}.
Proof. repeat split; reflexivity. Qed.

(** C5, amended: when the candidate list of the template is built (the
    home-directory shorthand of an explicit path, if it has one, can be
    expanded) and the target path is not a regular file, the program
    raises [FileNotFoundError] and the process exits with code 1; once the
    template has been resolved, the message is the one that names the
    target path. *)
Theorem target_not_found_exit
    (env : Env) (args : Args) (fs : gmap text text) (cs : list PurePath.t) :
  candidates env (template args) (repo_root env) = inr cs ->
  regular_file env fs (jsx_path_of env args) = false ->
  exists msg,
    main env args (initial fs) = (inl (FileNotFoundError msg), initial fs)
    /\ run env args fs
       = {| exit_code := 1; out := [];
            err := [chars "Error: " ++ msg]; disk := fs |}
    /\ forall template_path,
         resolve_template_path env (template args) (repo_root env) (initial fs)
         = (inr template_path, initial fs) ->
         msg = JSX_NOT_FOUND (jsx_path_of env args).
Proof.
  intros Hcs Hjsx.
  assert (Hnone : fs !! file_key env (jsx_path_of env args) = None).
  { unfold regular_file in Hjsx. apply bool_decide_eq_false in Hjsx.
    destruct (fs !! _) eqn:E; [|done]. destruct Hjsx. by eexists. }
  destruct (resolve_template_path env (template args) (repo_root env) (initial fs))
    as [[e|p] st'] eqn:H;
    pose proof (resolve_template_path_state _ _ _ _ _ _ H) as ->.
  - rewrite (resolve_template_path_candidates _ _ _ _ _ Hcs) in H.
    destruct (first_regular env fs cs) as [(pre & c & post & E & Hpre & Hc)|Hall].
    + rewrite (first_file_found env cs (initial fs) pre c post) in H by done.
      discriminate.
    + rewrite (first_file_none env cs (initial fs)) in H by done.
      injection H as <-. exists NOT_LOCATED.
      assert (H : resolve_template_path env (template args) (repo_root env) (initial fs)
                  = (inl (FileNotFoundError NOT_LOCATED), initial fs)).
      { rewrite (resolve_template_path_candidates _ _ _ _ _ Hcs).
        by apply first_file_none. }
      unfold run. rewrite (main_unresolved _ _ _ _ H).
      split; [done|]. split; [done|]. intros tp Htp. congruence.
  - exists (JSX_NOT_FOUND (jsx_path_of env args)).
    run_resolved H. by rewrite Hnone.
Qed.

Lemma target_not_found_exit_witness :
  candidates example_env (template example_args) (repo_root example_env)
  = inr [Path (chars "/tmp/t/spirit_hex_grey.psd")]
  /\ regular_file example_env example_fs
       (jsx_path_of example_env
          {| template := template example_args; jsx := Some (chars "missing.jsx") |})
     = false
  /\ exists msg,
       run example_env
         {| template := template example_args; jsx := Some (chars "missing.jsx") |}
         example_fs
       = {| exit_code := 1; out := [];
            err := [chars "Error: " ++ msg]; disk := example_fs |}.
Proof.
  split; [reflexivity|]. split; [reflexivity|].
  destruct (target_not_found_exit example_env
              {| template := template example_args; jsx := Some (chars "missing.jsx") |}
              example_fs _ eq_refl eq_refl) as (msg & _ & H & _).
  exists msg. exact H.
Defined.

(** C3: when the contents of the target file have no substring that
    matches the pattern, the program raises the pattern-not-matched error
    without writing anything, and the process prints that the line could
    not be found and exits with code 1. *)
Theorem pattern_not_found_exit
    (env : Env) (args : Args) (fs : gmap text text)
    (template_path : PurePath.t) (raw : text) :
  resolve_template_path env (template args) (repo_root env) (initial fs)
  = (inr template_path, initial fs) ->
  fs !! file_key env (jsx_path_of env args) = Some raw ->
  ~ occurs REPLACEMENT_PATTERN raw ->
  main env args (initial fs) = (inl (RuntimeError PATTERN_NOT_FOUND), initial fs)
  /\ run env args fs
     = {| exit_code := 1; out := [];
          err := [chars "Error: Could not find templateFile line to update in the JSX file."];
          disk := fs |}.
Proof.
  intros H Hraw Hno.
  assert (Hs : search REPLACEMENT_PATTERN (universal_newlines raw) = None).
  { destruct (search _ _) as [x|] eqn:E; [|done]. destruct Hno.
    apply occurs_universal_newlines, occurs_search. by eexists. }
  run_resolved H. by rewrite Hraw, Hs.
Qed.

Lemma pattern_not_found_exit_witness :
  resolve_template_path example_env (template example_args)
    (repo_root example_env) (initial plain_fs)
  = (inr (Path (chars "/tmp/t/spirit_hex_grey.psd")), initial plain_fs)
  /\ plain_fs !! file_key example_env (jsx_path_of example_env example_args)
     = Some (chars "run();")
  /\ ~ occurs REPLACEMENT_PATTERN (chars "run();")
  /\ run example_env example_args plain_fs
     = {| exit_code := 1; out := [];
          err := [chars "Error: Could not find templateFile line to update in the JSX file."];
          disk := plain_fs |}.
Proof.
  assert (Hno : ~ occurs REPLACEMENT_PATTERN (chars "run();")).
  { rewrite occurs_search. vm_compute. intros [x Hx]. discriminate Hx. }
  split; [reflexivity|]. split; [reflexivity|].
  split; [exact Hno|].
  exact (proj2 (pattern_not_found_exit example_env example_args plain_fs
                  (Path (chars "/tmp/t/spirit_hex_grey.psd")) (chars "run();")
                  eq_refl eq_refl Hno)).
Defined.

(** ** Exit codes and errors *)


(** C10: whatever exception the program raises, the file system is as it
    was before the run: the only write comes after all the checks. *)
Theorem error_leaves_files_unchanged
    (env : Env) (args : Args) (fs : gmap text text)
    (exc : exception) (st : state) :
  main env args (initial fs) = (inl exc, st) ->
  files st = fs
  /\ disk (run env args fs) = fs
  /\ exit_code (run env args fs) = 1%Z.
Proof.
  intros H. pose proof (main_raise _ _ _ _ _ H) as ->.
  unfold run. by rewrite H.
Qed.

Lemma error_leaves_files_unchanged_witness :
  main example_env example_args (initial plain_fs)
  = (inl (RuntimeError PATTERN_NOT_FOUND), initial plain_fs)
  /\ disk (run example_env example_args plain_fs) = plain_fs
  /\ exit_code (run example_env example_args plain_fs) = 1%Z.
Proof.
  assert (H : main example_env example_args (initial plain_fs)
              = (inl (RuntimeError PATTERN_NOT_FOUND), initial plain_fs))
    by reflexivity.
  split; [exact H|].
  exact (proj2 (error_leaves_files_unchanged example_env example_args plain_fs
                  _ _ H)).
Defined.

(** ** Expansion of the explicit path *)

(** C8, as the specification states it, fails: a relative [--template] is
    still relative when it is handed to the regular-file check; only the
    result is made absolute. *)
Lemma relative_template_checked_as_given :
  candidates example_env (Some (chars "assets/t.psd")) (repo_root example_env)
  = inr [PurePath.mk [] [chars "assets"; chars "t.psd"]]
  /\ PurePath.is_absolute (PurePath.mk [] [chars "assets"; chars "t.psd"]) = false
  /\ resolve example_env (PurePath.mk [] [chars "assets"; chars "t.psd"])
     = Path (chars "/work/assets/t.psd").
Proof. repeat split; reflexivity. Qed.

(** C8, amended: of an explicit template only the home-directory shorthand
    is expanded before the regular-file check; a path without it, relative
    or not, is checked as given, and the path that passes the check is
    resolved afterwards. *)
Theorem explicit_candidate_expansion
    (env : Env) (v : text) (root : PurePath.t) (st : state) (p : PurePath.t) :
  v <> [] ->
  expanduser env (Path v) = inr p ->
  candidates env (Some v) root = inr [p]
  /\ (home_shorthand (Path v) = false -> p = Path v)
  /\ (home_shorthand (Path v) = true ->
      exists first rest,
        PurePath.parts (Path v) = first :: rest
        /\ p = PurePath.mk (PurePath.root (Path (os_expanduser env first)))
                 (PurePath.parts (Path (os_expanduser env first)) ++ rest))
  /\ (regular_file env (files st) p = true ->
      resolve_template_path env (Some v) root st = (inr (resolve env p), st))
  /\ (regular_file env (files st) p = false ->
      resolve_template_path env (Some v) root st
      = (inl (FileNotFoundError NOT_LOCATED), st)).
Proof.
  intros Hv Hp.
  assert (Hcs : candidates env (Some v) root = inr [p]).
  { unfold candidates. destruct v; [done|]. simpl. by rewrite Hp. }
  split; [done|]. unfold home_shorthand, expanduser in *.
  split; [|split; [|split]].
  - intros Hh. destruct (PurePath.root (Path v)); [|congruence].
    destruct (PurePath.parts (Path v)); [congruence|].
    rewrite Hh in Hp. congruence.
  - intros Hh. destruct (PurePath.root (Path v)); [|done].
    destruct (PurePath.parts (Path v)) as [|first rest]; [done|].
    rewrite Hh in Hp. exists first, rest. split; [done|].
    destruct (starts_with_tilde (os_expanduser env first)); congruence.
  - intros Hreg. rewrite (resolve_template_path_candidates _ _ _ _ _ Hcs).
    by apply (first_file_found env [p] st [] p []).
  - intros Hreg. rewrite (resolve_template_path_candidates _ _ _ _ _ Hcs).
    apply first_file_none. by repeat constructor.
Qed.

Lemma explicit_candidate_expansion_witness :
  chars "~/art/t.psd" <> []
  /\ expanduser example_env (Path (chars "~/art/t.psd"))
     = inr (Path (chars "/home/u/art/t.psd"))
  /\ candidates example_env (Some (chars "~/art/t.psd")) (repo_root example_env)
     = inr [Path (chars "/home/u/art/t.psd")].
Proof.
  split; [discriminate|]. split; [reflexivity|].
  refine (proj1 (explicit_candidate_expansion example_env (chars "~/art/t.psd")
                   (repo_root example_env) (initial example_fs)
                   (Path (chars "/home/u/art/t.psd")) _ eq_refl)).
  discriminate.
Defined.

(** ** The rewrite *)

Lemma splice (pre m post x : text) :
  take (length pre) (pre ++ m ++ post) ++ x
  ++ drop (length pre + length m) (pre ++ m ++ post)
  = pre ++ x ++ post.
Proof. by rewrite take_app_length, drop_app_add, drop_app_length. Qed.

Lemma replacement_line_eq (template_path : PurePath.t) :
  replacement_line template_path
  = PREFIX ++ PurePath.as_posix template_path ++ SUFFIX.
Proof. reflexivity. Qed.

Lemma parse_replacement_line (template_path : PurePath.t) :
  BACKSLASH ∉ PurePath.as_posix template_path ->
  parse_template (replacement_line template_path)
  = Some (TChar <$> replacement_line template_path).
Proof.
  intros H. apply parse_template_plain. rewrite replacement_line_eq.
  rewrite !not_elem_of_app. split; [compute_done|]. split; [done|compute_done].
Qed.

(** C2, as the specification states it, fails: on a file with CR LF line
    ends the run succeeds and replaces the first match, but the bytes
    around it are not the ones that were there: every CR LF has become LF. *)
Lemma rewrite_normalises_line_endings :
  crlf_fs !! JSX_KEY
  = Some ((chars "// print" ++ [CR; LF]) ++ OLD_LINE ++ [CR; LF])
  /\ search REPLACEMENT_PATTERN
       ((chars "// print" ++ [CR; LF]) ++ OLD_LINE ++ [CR; LF])
     = Some (length (chars "// print" ++ [CR; LF]),
             length (chars "// print" ++ [CR; LF]) + length OLD_LINE)
  /\ exit_code (run example_env example_args crlf_fs) = 0%Z
  /\ disk (run example_env example_args crlf_fs) !! JSX_KEY
     = Some ((chars "// print" ++ [LF])
             ++ chars "var templateFile = new File('/tmp/t/spirit_hex_grey.psd');"
             ++ [LF])
  /\ (chars "// print" ++ [LF])
     ++ chars "var templateFile = new File('/tmp/t/spirit_hex_grey.psd');" ++ [LF]
     <> (chars "// print" ++ [CR; LF])
        ++ chars "var templateFile = new File('/tmp/t/spirit_hex_grey.psd');"
        ++ [CR; LF].
Proof. repeat split; try reflexivity. discriminate. Qed.

(** C2, amended: on a successful run whose template path has no backslash
    in its POSIX form, the text of the target file, read with CR LF and CR
    as LF, has its first match of the pattern (leftmost, and shortest from
    there) replaced by the line with that path; everything before and
    after the match is kept, the result is written to the same path, and
    no other file changes. The text read is the stored one when the file
    has no CR. *)
Theorem main_rewrites_first_match
    (env : Env) (args : Args) (fs : gmap text text)
    (template_path : PurePath.t) (raw : text) :
  resolve_template_path env (template args) (repo_root env) (initial fs)
  = (inr template_path, initial fs) ->
  fs !! file_key env (jsx_path_of env args) = Some raw ->
  occurs REPLACEMENT_PATTERN (universal_newlines raw) ->
  BACKSLASH ∉ PurePath.as_posix template_path ->
  exists pre m post,
    universal_newlines raw = pre ++ m ++ post
    /\ Matches REPLACEMENT_PATTERN m
    /\ (forall pre' m' post',
          universal_newlines raw = pre' ++ m' ++ post' ->
          Matches REPLACEMENT_PATTERN m' ->
          length pre <= length pre'
          /\ (length pre' = length pre -> length m <= length m'))
    /\ run env args fs
       = {| exit_code := 0;
            out := [confirmation (jsx_path_of env args) template_path];
            err := [];
            disk := <[file_key env (jsx_path_of env args) :=
                        pre ++ chars "var templateFile = new File('"
                        ++ PurePath.as_posix template_path ++ chars "');"
                        ++ post]> fs |}
    /\ (CR ∉ raw -> universal_newlines raw = raw).
Proof.
  intros H Hraw Hocc Hbs.
  apply occurs_search in Hocc as [[a b] Hs].
  destruct (search_first _ _ _ Hs)
    as (pre & body & post & Ht & Hbody & -> & -> & Hfirst).
  exists pre, (PREFIX ++ body ++ SUFFIX), post.
  split; [done|]. split; [apply Matches_pattern; by exists body|].
  split; [done|]. split; [|apply universal_newlines_id].
  run_resolved H.
  rewrite Hraw, Hs, (parse_replacement_line _ Hbs), expand_plain.
  rewrite Ht, splice. cbn [stdout initial app]. unfold replacement_line.
  by rewrite <- !app_assoc.
Qed.

Lemma main_rewrites_first_match_witness :
  resolve_template_path example_env (template example_args)
    (repo_root example_env) (initial example_fs)
  = (inr (Path (chars "/tmp/t/spirit_hex_grey.psd")), initial example_fs)
  /\ example_fs !! file_key example_env (jsx_path_of example_env example_args)
     = Some (chars "// print" ++ [LF] ++ OLD_LINE ++ [LF] ++ chars "run();" ++ [LF])
  /\ occurs REPLACEMENT_PATTERN
       (universal_newlines
          (chars "// print" ++ [LF] ++ OLD_LINE ++ [LF] ++ chars "run();" ++ [LF]))
  /\ (BACKSLASH ∉ PurePath.as_posix (Path (chars "/tmp/t/spirit_hex_grey.psd")))
  /\ exists pre post,
       run example_env example_args example_fs
       = {| exit_code := 0;
            out := [confirmation (jsx_path_of example_env example_args)
                      (Path (chars "/tmp/t/spirit_hex_grey.psd"))];
            err := [];
            disk := <[file_key example_env (jsx_path_of example_env example_args) :=
                        pre ++ chars "var templateFile = new File('"
                        ++ PurePath.as_posix (Path (chars "/tmp/t/spirit_hex_grey.psd"))
                        ++ chars "');" ++ post]> example_fs |}.
Proof.
  assert (Hocc : occurs REPLACEMENT_PATTERN
            (universal_newlines
               (chars "// print" ++ [LF] ++ OLD_LINE ++ [LF] ++ chars "run();" ++ [LF]))).
  { apply occurs_search. vm_compute. eexists. reflexivity. }
  assert (Hbs : BACKSLASH ∉ PurePath.as_posix (Path (chars "/tmp/t/spirit_hex_grey.psd"))).
  { vm_compute. intros Hin. repeat (apply elem_of_cons in Hin as [Hin|Hin]; [discriminate Hin|]).
    inversion Hin. }
  split; [reflexivity|]. split; [reflexivity|]. split; [exact Hocc|].
  split; [exact Hbs|].
  destruct (main_rewrites_first_match example_env example_args example_fs
              (Path (chars "/tmp/t/spirit_hex_grey.psd")) _ eq_refl eq_refl Hocc Hbs)
    as (pre & m & post & _ & _ & _ & Hrun & _).
  exists pre, post. exact Hrun.
Defined.

(** ** Running twice *)

(** C7, as the specification states it, fails: with a template whose file
    name contains [');] both runs succeed, and the second one changes the
    file the first one wrote. *)
Lemma second_run_rewrites_again :
  exit_code (run example_env quote_args quote_fs) = 0%Z
  /\ disk (run example_env quote_args quote_fs) !! JSX_KEY
     = Some (chars "var templateFile = new File('/tmp/t/a');b.psd');")
  /\ exit_code (run example_env quote_args
                  (disk (run example_env quote_args quote_fs))) = 0%Z
  /\ disk (run example_env quote_args
             (disk (run example_env quote_args quote_fs))) !! JSX_KEY
     = Some (chars "var templateFile = new File('/tmp/t/a');b.psd');b.psd');").
Proof. repeat split; reflexivity. Qed.

Lemma CR_not_in_replacement_line (template_path : PurePath.t) :
  CR ∉ PurePath.as_posix template_path -> CR ∉ replacement_line template_path.
Proof.
  intros H. rewrite replacement_line_eq, !not_elem_of_app.
  split; [compute_done|]. split; [done|compute_done].
Qed.

(** C7, amended: when the POSIX form of the template path has no
    backslash, no line feed, no carriage return and no [');] in it, a
    second run after a successful first one succeeds as well, prints the
    same line and leaves every file as the first run left it. *)
Theorem second_run_changes_nothing
    (env : Env) (args : Args) (fs : gmap text text)
    (template_path : PurePath.t) :
  resolve_template_path env (template args) (repo_root env) (initial fs)
  = (inr template_path, initial fs) ->
  plain_path (PurePath.as_posix template_path) ->
  exit_code (run env args fs) = 0%Z ->
  run env args (disk (run env args fs)) = run env args fs
  /\ exit_code (run env args (disk (run env args fs))) = 0%Z
  /\ disk (run env args (disk (run env args fs))) = disk (run env args fs).
Proof.
  intros H (Hbs & Hlf & Hcr & Hin) Hexit.
  cut (run env args (disk (run env args fs)) = run env args fs);
    [by intros ->|].
  set (key := file_key env (jsx_path_of env args)).
  (* the first run *)
  unfold run in Hexit |- *. rewrite (main_resolved _ _ _ _ H) in Hexit |- *.
  cbv zeta in Hexit |- *. cbn [files initial] in Hexit |- *. fold key in Hexit |- *.
  destruct (fs !! key) as [raw|] eqn:Hraw; [|done].
  destruct (search REPLACEMENT_PATTERN (universal_newlines raw))
    as [[a b]|] eqn:Hs; [|done].
  rewrite (parse_replacement_line _ Hbs), expand_plain in Hexit |- *.
  clear Hexit. cbn [disk stdout files initial].
  destruct (search_first _ _ _ Hs)
    as (pre & body & post & Ht & Hbody & -> & -> & _).
  rewrite Ht, splice.
  set (line := replacement_line template_path).
  set (fs1 := <[key := pre ++ line ++ post]> fs).
  (* the second run resolves the same template *)
  assert (H1 : resolve_template_path env (template args) (repo_root env) (initial fs1)
               = (inr template_path, initial fs1)).
  { destruct (resolve_template_path env (template args) (repo_root env) (initial fs1))
      as [r st'] eqn:E.
    pose proof (resolve_template_path_state _ _ _ _ _ _ E) as ->.
    pose proof (resolve_template_path_ext env (template args) (repo_root env)
                  (initial fs1) (initial fs)) as Hext.
    rewrite E, H in Hext. simpl in Hext. rewrite Hext; [done|].
    intros p. apply regular_file_insert. by eexists. }
  rewrite (main_resolved _ _ _ _ H1). cbv zeta. cbn [files initial]. fold key.
  unfold fs1 at 1. rewrite lookup_insert_eq.
  (* it reads what the first run wrote *)
  assert (Hcr1 : CR ∉ pre ++ line ++ post).
  { pose proof (universal_newlines_no_CR raw) as Hno. rewrite Ht in Hno.
    rewrite !not_elem_of_app in Hno |- *.
    split; [tauto|]. split; [by apply CR_not_in_replacement_line|tauto]. }
  rewrite (universal_newlines_id _ Hcr1).
  (* and finds the line at the same place *)
  assert (Hs1 : search REPLACEMENT_PATTERN (pre ++ line ++ post)
                = Some (length pre, length pre + length line)).
  { unfold line. rewrite replacement_line_eq.
    rewrite Ht, <- !app_assoc in Hs.
    rewrite <- !app_assoc.
    by apply (search_after_rewrite body post _ pre Hbody Hlf Hin). }
  rewrite Hs1, (parse_replacement_line _ Hbs), expand_plain.
  fold line. rewrite splice. cbn [stdout initial].
  unfold fs1. by rewrite insert_insert_eq.
Qed.

Lemma example_path_plain :
  plain_path (PurePath.as_posix (Path (chars "/tmp/t/spirit_hex_grey.psd"))).
Proof.
  assert (Hnot : forall c : ascii,
            bool_decide (c ∈ PurePath.as_posix (Path (chars "/tmp/t/spirit_hex_grey.psd")))
            = false ->
            c ∉ PurePath.as_posix (Path (chars "/tmp/t/spirit_hex_grey.psd"))).
  { intros c Hc. by apply bool_decide_eq_false in Hc. }
  split; [apply Hnot; reflexivity|].
  split; [apply Hnot; reflexivity|].
  split; [apply Hnot; reflexivity|].
  intros a b Hab.
  assert (Hin : ")"%char ∈ PurePath.as_posix (Path (chars "/tmp/t/spirit_hex_grey.psd"))).
  { rewrite Hab. rewrite !elem_of_app. right. left.
    apply elem_of_cons. right. apply elem_of_cons. by left. }
  revert Hin. apply Hnot. reflexivity.
Defined.

Lemma second_run_changes_nothing_witness :
  resolve_template_path example_env (template example_args)
    (repo_root example_env) (initial example_fs)
  = (inr (Path (chars "/tmp/t/spirit_hex_grey.psd")), initial example_fs)
  /\ plain_path (PurePath.as_posix (Path (chars "/tmp/t/spirit_hex_grey.psd")))
  /\ exit_code (run example_env example_args example_fs) = 0%Z
  /\ run example_env example_args (disk (run example_env example_args example_fs))
     = run example_env example_args example_fs.
Proof.
  split; [reflexivity|]. split; [exact example_path_plain|].
  split; [reflexivity|].
  exact (proj1 (second_run_changes_nothing example_env example_args example_fs
                  (Path (chars "/tmp/t/spirit_hex_grey.psd"))
                  eq_refl example_path_plain eq_refl)).
Defined.

(** ** Worked examples *)

(** The scenario of the specification: the template under [/tmp/t], and a
    target with the old line among other lines. *)
Example scenario_template_in_tmp :
  run example_env example_args example_fs
  = {| exit_code := 0;
       out := [chars "Updated template path in /repo/scripts/hex-spirit-game-print.jsx to /tmp/t/spirit_hex_grey.psd"];
       err := [];
       disk := <[JSX_KEY :=
                   chars "// print" ++ [LF]
                   ++ chars "var templateFile = new File('/tmp/t/spirit_hex_grey.psd');"
                   ++ [LF] ++ chars "run();" ++ [LF]]> example_fs |}.
Proof. reflexivity. Qed.

(** [Path] drops empty and [.] components; [/] joins. *)
Example parse_relative :
  Path (chars "a//b/./c/") = PurePath.mk [] [chars "a"; chars "b"; chars "c"].
Proof. reflexivity. Qed.

Example default_target :
  PurePath.str (jsx_path_of example_env default_args) = JSX_KEY.
Proof. reflexivity. Qed.

(** The search is leftmost and non-greedy. *)
Example search_non_greedy :
  search REPLACEMENT_PATTERN
    (chars "x var templateFile = new File('a');b');")
  = Some (2, 35).
Proof. reflexivity. Qed.

(** A backslash in the template path is read by [sub] as an escape: the
    run succeeds, and the line written has a line feed where the path has
    a backslash and an [n]. *)
Lemma backslash_path_not_literal :
  PurePath.as_posix (Path (chars "/tmp/t/a\n.psd")) = chars "/tmp/t/a\n.psd"
  /\ exit_code (run example_env backslash_args backslash_fs) = 0%Z
  /\ disk (run example_env backslash_args backslash_fs) !! JSX_KEY
     = Some (chars "var templateFile = new File('/tmp/t/a" ++ [LF] ++ chars ".psd');")
  /\ chars "var templateFile = new File('/tmp/t/a" ++ [LF] ++ chars ".psd');"
     <> replacement_line (Path (chars "/tmp/t/a\n.psd")).
Proof. repeat split; try reflexivity. discriminate. Qed.

(** A backslash before a letter that is no escape makes [sub] raise. *)
Example bad_escape_rejected :
  parse_template (replacement_line (Path (chars "/tmp/t/a\d.psd"))) = None.
Proof. reflexivity. Qed.

(** * Further properties of the script *)

(** ** The two ways a run ends *)

Section Outcome.

Context (env : Env) (args : Args).

Implicit Types (fs : gmap text text).

(** A run either raises and leaves the files alone, or it has resolved
    the template, read the target, found the span [(a, b)] and written the
    text with that span replaced by the expanded template. *)
Lemma run_outcome fs :
  (exists exc,
     main env args (initial fs) = (inl exc, initial fs)
     /\ run env args fs
        = {| exit_code := 1; out := [];
             err := [chars "Error: " ++ exc_str exc]; disk := fs |})
  \/ (exists template_path raw a b tpl,
        resolve_template_path env (template args) (repo_root env) (initial fs)
        = (inr template_path, initial fs)
        /\ fs !! file_key env (jsx_path_of env args) = Some raw
        /\ search REPLACEMENT_PATTERN (universal_newlines raw) = Some (a, b)
        /\ parse_template (replacement_line template_path) = Some tpl
        /\ run env args fs
           = {| exit_code := 0;
                out := [confirmation (jsx_path_of env args) template_path];
                err := [];
                disk := <[file_key env (jsx_path_of env args) :=
                            take a (universal_newlines raw)
                            ++ expand tpl (take (b - a)
                                             (drop a (universal_newlines raw)))
                            ++ drop b (universal_newlines raw)]> fs |}).
Proof.
  destruct (resolve_template_path env (template args) (repo_root env) (initial fs))
    as [[e|p] st'] eqn:H;
    pose proof (resolve_template_path_state _ _ _ _ _ _ H) as ->.
  - left. exists e. unfold run. by rewrite (main_unresolved _ _ _ _ H).
  - unfold run. rewrite (main_resolved _ _ _ _ H). cbv zeta. cbn [files initial].
    destruct (fs !! file_key env (jsx_path_of env args)) as [raw|] eqn:Hraw;
      [|left; by eexists].
    destruct (search REPLACEMENT_PATTERN (universal_newlines raw))
      as [[a b]|] eqn:Hs; [|left; by eexists].
    destruct (parse_template (replacement_line p)) as [tpl|] eqn:Ht;
      [|left; by eexists].
    right. exists p, raw, a, b, tpl. by rewrite Hs.
Qed.

(** The span of a search, cut out of the text. *)
Lemma search_split (s : text) a b :
  search REPLACEMENT_PATTERN s = Some (a, b) ->
  exists pre body post,
    s = pre ++ (PREFIX ++ body ++ SUFFIX) ++ post /\ (LF ∉ body)
    /\ take a s = pre /\ drop b s = post
    /\ take (b - a) (drop a s) = PREFIX ++ body ++ SUFFIX.
Proof.
  intros Hs.
  destruct (search_first _ _ _ Hs) as (pre & body & post & -> & Hb & -> & -> & _).
  exists pre, body, post. split; [done|]. split; [done|].
  rewrite take_app_length, drop_app_add, drop_app_length, drop_app_length.
  replace (length pre + length (PREFIX ++ body ++ SUFFIX) - length pre)
    with (length (PREFIX ++ body ++ SUFFIX)) by lia.
  by rewrite take_app_length.
Qed.

(** Writing to a regular file does not change what the template resolves to. *)
Lemma resolve_template_path_after_write fs k v template_path :
  is_Some (fs !! k) ->
  resolve_template_path env (template args) (repo_root env) (initial fs)
  = (inr template_path, initial fs) ->
  resolve_template_path env (template args) (repo_root env)
    (initial (<[k:=v]> fs))
  = (inr template_path, initial (<[k:=v]> fs)).
Proof.
  intros Hk H.
  destruct (resolve_template_path env (template args) (repo_root env)
              (initial (<[k:=v]> fs))) as [r st'] eqn:E.
  pose proof (resolve_template_path_state _ _ _ _ _ _ E) as ->.
  pose proof (resolve_template_path_ext env (template args) (repo_root env)
                (initial (<[k:=v]> fs)) (initial fs)) as Hext.
  rewrite E, H in Hext. cbn [fst] in Hext. rewrite Hext; [done|].
  intros p. by apply regular_file_insert.
Qed.

(** A successful run with a path free of backslashes, seen as text. *)
Lemma run_plain fs template_path :
  resolve_template_path env (template args) (repo_root env) (initial fs)
  = (inr template_path, initial fs) ->
  BACKSLASH ∉ PurePath.as_posix template_path ->
  exit_code (run env args fs) = 0%Z ->
  exists raw pre body post,
    fs !! file_key env (jsx_path_of env args) = Some raw
    /\ universal_newlines raw = pre ++ (PREFIX ++ body ++ SUFFIX) ++ post
    /\ disk (run env args fs)
       = <[file_key env (jsx_path_of env args) :=
             pre ++ replacement_line template_path ++ post]> fs.
Proof.
  intros H Hbs Hexit.
  destruct (run_outcome fs)
    as [(exc & _ & Hrun)|(p & raw & a & b & tpl & Hp & Hraw & Hs & Ht & Hrun)];
    rewrite Hrun in Hexit |- *; [done|].
  assert (p = template_path) as -> by congruence.
  assert (tpl = TChar <$> replacement_line template_path) as ->
    by (rewrite (parse_replacement_line _ Hbs) in Ht; congruence).
  destruct (search_split _ _ _ Hs) as (pre & body & post & Hsplit & _ & Ha & Hb & _).
  exists raw, pre, body, post. split; [done|]. split; [done|].
  cbn [disk]. by rewrite expand_plain, Ha, Hb.
Qed.

End Outcome.

(** A template is rejected as soon as a backslash is followed by an ASCII
    letter that is neither an escape nor [g]. *)
Lemma parse_template_app_plain (a b : text) :
  BACKSLASH ∉ a ->
  parse_template (a ++ b) = (fun t => (TChar <$> a) ++ t) <$> parse_template b.
Proof.
  induction a as [|c a IH]; intros Ha.
  - rewrite app_nil_l. by destruct (parse_template b).
  - rewrite not_elem_of_cons in Ha. destruct Ha as [Hc Ha].
    rewrite <- app_comm_cons. cbn [parse_template].
    rewrite decide_False by congruence. rewrite (IH Ha).
    by destruct (parse_template b).
Qed.

Lemma parse_template_bad_escape (c : ascii) (rest : text) :
  is_ascii_letter c = true -> ESCAPES c = None -> c <> "g"%char ->
  parse_template (BACKSLASH :: c :: rest) = None.
Proof.
  intros Hl He Hg. cbn [parse_template].
  rewrite decide_True by done. rewrite decide_False by done.
  assert (Hn : 65 <= nat_of_ascii c)
    by (unfold is_ascii_letter in Hl; apply bool_decide_eq_true in Hl; lia).
  destruct (decide (c = "0"%char)) as [->|_]; [by vm_compute in Hn; lia|].
  assert (Hd : is_digit c = false)
    by (unfold is_digit; apply bool_decide_eq_false; lia).
  by rewrite Hd, He, Hl.
Qed.

(** ** What a run does to the files *)

(** X1: a run never changes a file other than the target, whether it
    succeeds or fails. *)
Theorem run_touches_only_target
    (env : Env) (args : Args) (fs : gmap text text) (k : text) :
  k <> file_key env (jsx_path_of env args) ->
  disk (run env args fs) !! k = fs !! k.
Proof.
  intros Hk.
  destruct (run_outcome env args fs)
    as [(exc & _ & ->)|(p & raw & a & b & tpl & _ & _ & _ & _ & ->)];
    [done|].
  cbn [disk]. by rewrite lookup_insert_ne.
Qed.

Lemma run_touches_only_target_witness :
  chars "/tmp/t/spirit_hex_grey.psd"
  <> file_key example_env (jsx_path_of example_env example_args)
  /\ disk (run example_env example_args example_fs)
     !! chars "/tmp/t/spirit_hex_grey.psd"
     = example_fs !! chars "/tmp/t/spirit_hex_grey.psd".
Proof.
  assert (Hk : chars "/tmp/t/spirit_hex_grey.psd"
               <> file_key example_env (jsx_path_of example_env example_args))
    by discriminate.
  split; [exact Hk|].
  exact (run_touches_only_target example_env example_args example_fs _ Hk).
Defined.

(** X2: a run neither creates nor removes a file: the regular files after
    it are the regular files before it. *)
Theorem run_keeps_the_set_of_files
    (env : Env) (args : Args) (fs : gmap text text) :
  dom (disk (run env args fs)) = dom fs.
Proof.
  destruct (run_outcome env args fs)
    as [(exc & _ & ->)|(p & raw & a & b & tpl & _ & Hraw & _ & _ & ->)];
    [done|].
  cbn [disk]. rewrite dom_insert_L.
  apply elem_of_dom_2 in Hraw.
  apply subseteq_union_1_L. by apply singleton_subseteq_l.
Qed.






(** ** A second run *)

(** X5: after a successful run with a template path that has no
    backslash, no line feed and no carriage return, the target still has
    the line, so a second run succeeds too. *)
Theorem rerun_succeeds
    (env : Env) (args : Args) (fs : gmap text text)
    (template_path : PurePath.t) :
  resolve_template_path env (template args) (repo_root env) (initial fs)
  = (inr template_path, initial fs) ->
  BACKSLASH ∉ PurePath.as_posix template_path ->
  LF ∉ PurePath.as_posix template_path ->
  CR ∉ PurePath.as_posix template_path ->
  exit_code (run env args fs) = 0%Z ->
  exit_code (run env args (disk (run env args fs))) = 0%Z.
Proof.
  intros H Hbs Hlf Hcr Hexit.
  destruct (run_plain env args fs _ H Hbs Hexit)
    as (raw & pre & body & post & Hraw & Ht & ->).
  set (key := file_key env (jsx_path_of env args)) in *.
  assert (H1 := resolve_template_path_after_write env args fs key
                  (pre ++ replacement_line template_path ++ post)
                  template_path ltac:(by eexists) H).
  unfold run. rewrite (main_resolved _ _ _ _ H1). cbv zeta. cbn [files initial].
  fold key. rewrite lookup_insert_eq.
  assert (Hcr1 : CR ∉ pre ++ replacement_line template_path ++ post).
  { pose proof (universal_newlines_no_CR raw) as Hno. rewrite Ht in Hno.
    rewrite !not_elem_of_app in Hno |- *.
    split; [tauto|]. split; [by apply CR_not_in_replacement_line|tauto]. }
  rewrite (universal_newlines_id _ Hcr1).
  assert (Hocc : occurs REPLACEMENT_PATTERN
                   (pre ++ replacement_line template_path ++ post)).
  { exists pre, (replacement_line template_path), post. split; [done|].
    rewrite replacement_line_eq. apply Matches_pattern.
    by exists (PurePath.as_posix template_path). }
  apply occurs_search in Hocc as [[a b] ->].
  by rewrite (parse_replacement_line _ Hbs).
Qed.

Lemma quote_path_line_free :
  (BACKSLASH ∉ PurePath.as_posix (Path (chars "/tmp/t/a');b.psd")))
  /\ (LF ∉ PurePath.as_posix (Path (chars "/tmp/t/a');b.psd")))
  /\ (CR ∉ PurePath.as_posix (Path (chars "/tmp/t/a');b.psd"))).
Proof.
  assert (Hnot : forall c : ascii,
            bool_decide (c ∈ PurePath.as_posix (Path (chars "/tmp/t/a');b.psd")))
            = false ->
            c ∉ PurePath.as_posix (Path (chars "/tmp/t/a');b.psd"))).
  { intros c Hc. by apply bool_decide_eq_false in Hc. }
  repeat split; apply Hnot; reflexivity.
Defined.

Lemma rerun_succeeds_witness :
  resolve_template_path example_env (template quote_args)
    (repo_root example_env) (initial quote_fs)
  = (inr (Path (chars "/tmp/t/a');b.psd")), initial quote_fs)
  /\ exit_code (run example_env quote_args quote_fs) = 0%Z
  /\ exit_code (run example_env quote_args
                  (disk (run example_env quote_args quote_fs))) = 0%Z.
Proof.
  split; [reflexivity|]. split; [reflexivity|].
  exact (rerun_succeeds example_env quote_args quote_fs
           (Path (chars "/tmp/t/a');b.psd")) eq_refl
           (proj1 quote_path_line_free)
           (proj1 (proj2 quote_path_line_free))
           (proj2 (proj2 quote_path_line_free)) eq_refl).
Defined.

(** X9: a successful run with a template path that has no backslash and
    no carriage return leaves the target without any carriage return:
    every CR LF and CR of the file has been written back as LF. *)
Theorem rewritten_file_has_no_CR
    (env : Env) (args : Args) (fs : gmap text text)
    (template_path : PurePath.t) :
  resolve_template_path env (template args) (repo_root env) (initial fs)
  = (inr template_path, initial fs) ->
  BACKSLASH ∉ PurePath.as_posix template_path ->
  CR ∉ PurePath.as_posix template_path ->
  exit_code (run env args fs) = 0%Z ->
  exists content,
    disk (run env args fs) !! file_key env (jsx_path_of env args) = Some content
    /\ (CR ∉ content).
Proof.
  intros H Hbs Hcr Hexit.
  destruct (run_plain env args fs _ H Hbs Hexit)
    as (raw & pre & body & post & Hraw & Ht & ->).
  eexists. split; [apply lookup_insert_eq|].
  pose proof (universal_newlines_no_CR raw) as Hno. rewrite Ht in Hno.
  rewrite !not_elem_of_app in Hno |- *.
  split; [tauto|]. split; [by apply CR_not_in_replacement_line|tauto].
Qed.

Lemma rewritten_file_has_no_CR_witness :
  resolve_template_path example_env (template example_args)
    (repo_root example_env) (initial crlf_fs)
  = (inr (Path (chars "/tmp/t/spirit_hex_grey.psd")), initial crlf_fs)
  /\ exit_code (run example_env example_args crlf_fs) = 0%Z
  /\ exists content,
       disk (run example_env example_args crlf_fs)
       !! file_key example_env (jsx_path_of example_env example_args)
       = Some content
       /\ (CR ∉ content).
Proof.
  split; [reflexivity|]. split; [reflexivity|].
  exact (rewritten_file_has_no_CR example_env example_args crlf_fs
           (Path (chars "/tmp/t/spirit_hex_grey.psd")) eq_refl
           (proj1 example_path_plain)
           (proj1 (proj2 (proj2 example_path_plain))) eq_refl).
Defined.

(** ** A template path that [sub] rejects *)

(** X6: when the first backslash in the POSIX form of the template path
    is followed by an ASCII letter that is neither an escape of [re] nor
    [g], the run fails in [sub] although template, target and line are all
    there: [main] raises the error of the template, the process prints it
    after [Error: ], exits with code 1 and writes nothing. *)
Theorem bad_escape_fails
    (env : Env) (args : Args) (fs : gmap text text)
    (template_path : PurePath.t) (raw s1 s2 : text) (c : ascii) :
  resolve_template_path env (template args) (repo_root env) (initial fs)
  = (inr template_path, initial fs) ->
  fs !! file_key env (jsx_path_of env args) = Some raw ->
  occurs REPLACEMENT_PATTERN (universal_newlines raw) ->
  PurePath.as_posix template_path = s1 ++ BACKSLASH :: c :: s2 ->
  BACKSLASH ∉ s1 ->
  is_ascii_letter c = true -> ESCAPES c = None -> c <> "g"%char ->
  exists msg,
    main env args (initial fs) = (inl (TemplateError msg), initial fs)
    /\ run env args fs
       = {| exit_code := 1; out := [];
            err := [chars "Error: " ++ msg]; disk := fs |}.
Proof.
  intros H Hraw [[a b] Hs]%occurs_search Hpath Hs1 Hl He Hg.
  assert (Ht : parse_template (replacement_line template_path) = None).
  { rewrite replacement_line_eq, Hpath.
    replace (PREFIX ++ (s1 ++ BACKSLASH :: c :: s2) ++ SUFFIX)
      with ((PREFIX ++ s1) ++ BACKSLASH :: c :: (s2 ++ SUFFIX))
      by (by rewrite <- !app_assoc).
    rewrite parse_template_app_plain.
    - by rewrite (parse_template_bad_escape c (s2 ++ SUFFIX) Hl He Hg).
    - rewrite not_elem_of_app. split; [compute_done|done]. }
  exists (re_error_text env (replacement_line template_path)).
  unfold run. rewrite (main_resolved _ _ _ _ H). cbv zeta. cbn [files initial].
  by rewrite Hraw, Hs, Ht.
Qed.

Lemma bad_escape_fails_witness :
  resolve_template_path example_env (template escape_args)
    (repo_root example_env) (initial escape_fs)
  = (inr (Path (chars "/tmp/t/a\d.psd")), initial escape_fs)
  /\ PurePath.as_posix (Path (chars "/tmp/t/a\d.psd"))
     = chars "/tmp/t/a" ++ BACKSLASH :: "d"%char :: chars ".psd"
  /\ exists msg,
       main example_env escape_args (initial escape_fs)
       = (inl (TemplateError msg), initial escape_fs)
       /\ run example_env escape_args escape_fs
          = {| exit_code := 1; out := [];
               err := [chars "Error: " ++ msg]; disk := escape_fs |}.
Proof.
  assert (Hocc : occurs REPLACEMENT_PATTERN (universal_newlines OLD_LINE)).
  { apply occurs_search. vm_compute. eexists. reflexivity. }
  assert (Hs1 : BACKSLASH ∉ chars "/tmp/t/a").
  { assert (E : bool_decide (BACKSLASH ∈ chars "/tmp/t/a") = false)
      by reflexivity.
    by apply bool_decide_eq_false in E. }
  split; [reflexivity|]. split; [reflexivity|].
  refine (bad_escape_fails example_env escape_args escape_fs
            (Path (chars "/tmp/t/a\d.psd")) OLD_LINE (chars "/tmp/t/a")
            (chars ".psd") "d"%char eq_refl eq_refl Hocc eq_refl Hs1
            eq_refl eq_refl _).
  discriminate.
Defined.

(** ** The search for the line *)

(** X7: the search finds something exactly when the text has, somewhere,
    [var templateFile = new File('] and later on the same line [');]. *)
Theorem search_finds_the_line (s : text) :
  is_Some (search REPLACEMENT_PATTERN s)
  <-> exists pre body post,
        s = pre ++ chars "var templateFile = new File('" ++ body
            ++ chars "');" ++ post
        /\ (LF ∉ body).
Proof.
  rewrite <- occurs_search. split.
  - intros (pre & m & post & -> & (body & Hb & ->)%Matches_pattern).
    exists pre, body, post. split; [|done]. by rewrite <- !app_assoc.
  - intros (pre & body & post & -> & Hb).
    exists pre, (PREFIX ++ body ++ SUFFIX), post.
    split; [by rewrite <- !app_assoc|].
    apply Matches_pattern. by exists body.
Qed.

(** X8: the span a search reports lies inside the text, holds at least
    the 32 literal characters of the pattern and contains no line feed: a
    run replaces text within one line. *)
Theorem match_within_one_line (s : text) (a b : nat) :
  search REPLACEMENT_PATTERN s = Some (a, b) ->
  a + 32 <= b /\ b <= length s /\ (LF ∉ take (b - a) (drop a s)).
Proof.
  intros Hs. pose proof (search_bounds _ _ _ _ Hs) as Hab.
  destruct (search_split _ _ _ Hs) as (pre & body & post & _ & Hb & _ & _ & Hm).
  split; [|split; [lia|]].
  - apply (f_equal length) in Hm.
    rewrite length_take, length_drop, !length_app in Hm.
    change (length PREFIX) with 29 in Hm. change (length SUFFIX) with 3 in Hm.
    lia.
  - rewrite Hm. apply pattern_LF_free, Matches_pattern. by exists body.
Qed.

Lemma match_within_one_line_witness :
  search REPLACEMENT_PATTERN (chars "x var templateFile = new File('a');b');")
  = Some (2, 35)
  /\ 2 + 32 <= 35
  /\ 35 <= length (chars "x var templateFile = new File('a');b');")
  /\ (LF ∉ take (35 - 2)
             (drop 2 (chars "x var templateFile = new File('a');b');"))).
Proof.
  split; [reflexivity|].
  exact (match_within_one_line
           (chars "x var templateFile = new File('a');b');") 2 35 eq_refl).
Defined.
